(** * Verification of the Motor performance harness (perf_test_py27.py)

    A shallow embedding of the harness core of [perf_test_py27.py]:
    the [Timer] context manager, [_PerformanceTest.percentile],
    [_PerformanceTest.runTest], [chunks] and [insert_json_files].

    Conventions of the embedding.
    - The file is Python 2 ([urllib.urlretrieve], [urlparse]); on
      integers [/] is floor division, which is [Z.div].
    - Clock readings and durations are integers: a reading is a number
      of clock ticks of some fixed resolution.  Only their order and
      their differences matter to the harness.
    - A raised exception is a value of [exn]; a computation that may
      raise returns a [result]. *)

From stdpp Require Import base numbers list sorting strings gmap.
From Stdlib Require Import ZArith Lia.

Local Open Scope Z_scope.

(** ** Exceptions and results *)

Inductive exn : Type :=
  | IndexError
  | ValueError
  | AttributeError (name : string)
  | AssertionError (msg : string)
  | TaskError (code : nat).

Inductive result (A : Type) : Type :=
  | Return (a : A)
  | Raise (e : exn).

Arguments Return {A} a.
Arguments Raise {A} e.

(** ** The Python built-ins the harness relies on *)

Module Py.

(** [l[i]]: a negative index counts from the end; an index outside
    [-len(l) .. len(l)-1] raises [IndexError]. *)
Definition getitem {A} (l : list A) (i : Z) : result A :=
  let len := Z.of_nat (length l) in
  let pos := if i <? 0 then i + len else i in
  if pos <? 0 then Raise IndexError
  else match l !! Z.to_nat pos with
       | Some x => Return x
       | None => Raise IndexError
       end.

(** The indices [l[i]] accepts. *)
Definition valid_index {A} (l : list A) (i : Z) : Prop :=
  - Z.of_nat (length l) ≤ i < Z.of_nat (length l).

(** [l[i:j]]: negative bounds count from the end, and both bounds are
    clipped to [0 .. len(l)]. *)
Definition slice {A} (l : list A) (i j : Z) : list A :=
  let len := Z.of_nat (length l) in
  let clip k := if k <? 0 then Z.max 0 (k + len) else Z.min k len in
  let a := clip i in
  let b := clip j in
  take (Z.to_nat (b - a)) (drop (Z.to_nat a) l).

(** [range(start, stop, step)], as the list of its values. *)
Definition range (start stop step : Z) : result (list Z) :=
  if step =? 0 then Raise ValueError
  else
    let count :=
      if 0 <? step then (stop - start + step - 1) / step
      else (start - stop - step - 1) / (- step) in
    Return ((λ k : nat, start + Z.of_nat k * step) <$> seq 0 (Z.to_nat count)).

(** [sorted(l)] on numbers: ascending, stable. *)
Definition sorted (l : list Z) : list Z := merge_sort Z.le l.

End Py.

(** ** [_PerformanceTest]: the attributes the harness core sets *)

Record PerformanceTest : Type := {
  results : option (list Z);          (* absent until [runTest] finishes *)
  max_iterations : option nat
}.

Definition new_test : PerformanceTest :=
  {| results := None; max_iterations := None |}.

Definition with_results (rs : list Z) : PerformanceTest :=
  {| results := Some rs; max_iterations := None |}.

(** [percentile_index]: the index expression of [percentile]. *)
Definition percentile_index (sorted_results : list Z) (percentile : Z) : Z :=
  Z.of_nat (length sorted_results) * percentile / 100 - 1.

Definition percentile (self : PerformanceTest) (percentile : Z) : result Z :=
  match results self with
  | Some rs =>
      let sorted_results := Py.sorted rs in
      Py.getitem sorted_results (percentile_index sorted_results percentile)
  | None => Raise (AssertionError "Test execution failed")
  end.

(** What the specification describes instead: the raw index clamped to
    [0 .. len-1]. *)
Definition clamped_index (len percentile : Z) : Z :=
  Z.max 0 (Z.min (len - 1) (len * percentile / 100 - 1)).

Definition percentile_clamped (samples : list Z) (p : Z) : result Z :=
  let sorted_samples := Py.sorted samples in
  Py.getitem sorted_samples (clamped_index (Z.of_nat (length samples)) p).

(** [d] is the largest element of [l]. *)
Definition is_maximum (d : Z) (l : list Z) : Prop :=
  d ∈ l ∧ ∀ x, x ∈ l → x ≤ d.

(** ** The world the harness runs in *)

(** The harness reads the wall clock with [time()] and calls the two
    hooks of the scenario.  [ticks] counts the clock readings taken so
    far, [before_calls] and [task_calls] count the calls of [before] and
    of [do_task]; [self] is the test object. *)
Record State : Type := {
  ticks : nat;
  before_calls : nat;
  task_calls : nat;
  self : PerformanceTest
}.

Definition initial_state : State :=
  {| ticks := 0; before_calls := 0; task_calls := 0; self := new_test |}.

(** A statement of the harness: it changes the state and returns or
    raises.  What was done before an exception stays done. *)
Definition M (A : Type) : Type := State → result A * State.

Global Instance M_ret : MRet M := λ A a s, (Return a, s).

Global Instance M_bind : MBind M := λ A B k m s,
  match m s with
  | (Return a, s') => k a s'
  | (Raise e, s') => (Raise e, s')
  end.

Definition raise {A} (e : exn) : M A := λ s, (Raise e, s).

(** [advance dt db dk s]: [dt] more clock readings, [db] more calls of
    [before] and [dk] more calls of [do_task] than in [s]. *)
Definition advance (dt db dk : nat) (s : State) : State :=
  {| ticks := dt + ticks s; before_calls := db + before_calls s;
     task_calls := dk + task_calls s; self := self s |}.

Definition set_self (f : PerformanceTest → PerformanceTest) : M unit := λ s,
  (Return (),
   {| ticks := ticks s; before_calls := before_calls s;
      task_calls := task_calls s; self := f (self s) |}).

(** ** [Timer] *)

Record Timer : Type := {
  start : option Z;
  end_ : option Z;             (* the attribute [end] *)
  interval : option Z
}.

(** [Timer()]: an object without attributes yet. *)
Definition Timer_new : Timer :=
  {| start := None; end_ := None; interval := None |}.

Section harness.
(** The [n]-th reading of [time()], counted from 0.  [time] is the
    wall clock of the [time] module: nothing relates one reading to
    the next. *)
Variable clock : nat → Z.

(** What the [n]-th call of [self.before()] and the [n]-th call of
    [self.io_loop.run_sync(self.do_task)] do: return ([None]) or
    raise. *)
Variable before_hook : nat → option exn.
Variable do_task : nat → option exn.

(** The module constants. *)
Variable NUM_ITERATIONS : nat.
Variable MAX_ITERATION_TIME : Z.

Definition time : M Z := λ s, (Return (clock (ticks s)), advance 1 0 0 s).

Definition before : M unit := λ s,
  (match before_hook (before_calls s) with
   | None => Return ()
   | Some e => Raise e
   end, advance 0 1 0 s).

Definition run_sync_do_task : M unit := λ s,
  (match do_task (task_calls s) with
   | None => Return ()
   | Some e => Raise e
   end, advance 0 0 1 s).

(** [Timer.__enter__] *)
Definition Timer_enter (self : Timer) : M Timer :=
  t ← time;
  mret {| start := Some t; end_ := end_ self; interval := interval self |}.

(** [Timer.__exit__] *)
Definition Timer_exit (self : Timer) : M Timer :=
  t ← time;
  match start self with
  | Some t0 =>
      mret {| start := Some t0; end_ := Some t; interval := Some (t - t0) |}
  | None => raise (AttributeError "start")
  end.

(** [with Timer() as timer: body].  [__exit__] runs whether [body]
    returns or raises; it returns [None], so an exception of [body]
    goes on to the caller. *)
Definition with_Timer (body : M unit) : M Timer :=
  timer ← Timer_enter Timer_new;
  ((λ s, match body s with
         | (Return _, s') => Timer_exit timer s'
         | (Raise e, s') =>
             match Timer_exit timer s' with
             | (Return _, s'') => (Raise e, s'')
             | (Raise e', s'') => (Raise e', s'')
             end
         end) : M Timer).

(** [timer.interval] *)
Definition get_interval (timer : Timer) : M Z :=
  match interval timer with
  | Some d => mret d
  | None => raise (AttributeError "interval")
  end.

(** ** [_PerformanceTest.runTest] *)

(** The [for] loop of [runTest] with [n] rounds of
    [range(NUM_ITERATIONS)] left; [start] and [results] are the local
    variables of [runTest]. *)
Fixpoint iterate (n : nat) (start : Z) (results : list Z) : M (list Z) :=
  match n with
  | O => mret results
  | S n' =>
      now ← time;
      if now - start >? MAX_ITERATION_TIME then mret results   (* break *)
      else
        _ ← before;
        timer ← with_Timer run_sync_do_task;
        d ← get_interval timer;
        iterate n' start (results ++ [d])
  end.

Definition runTest : M unit :=
  start ← time;
  _ ← set_self (λ o, {| results := results o;
                        max_iterations := Some NUM_ITERATIONS |});
  results ← iterate NUM_ITERATIONS start [];
  set_self (λ o, {| results := Some results;
                    max_iterations := max_iterations o |}).

(** The call [self.percentile(50)] of [tearDown]. *)
Definition tearDown : M Z := λ s, (percentile (self s) 50, s).

End harness.

(** The state in which [runTest] enters its loop: [start] has been
    read and [max_iterations] set. *)
Definition loop_entry (NUM_ITERATIONS : nat) (s : State) : State :=
  {| ticks := S (ticks s); before_calls := before_calls s;
     task_calls := task_calls s;
     self := {| results := results (self s);
                max_iterations := Some NUM_ITERATIONS |} |}.

(** Three inputs used as examples below: a clock that advances by one
    tick at every reading, a clock that stands still for its first two
    readings, and a task that fails on its third call (call number 2)
    only. *)
Definition ticking_clock : nat → Z := Z.of_nat.

Definition coarse_clock (n : nat) : Z := if (n <? 2)%nat then 0 else Z.of_nat n.

Definition fails_on_third_call (k : nat) : option exn :=
  if (k =? 2)%nat then Some (TaskError 3) else None.

(** ** [chunks] and [insert_json_files] *)

Section batch.
Context {A : Type}.

(** [chunks(l, n)], as the list of the chunks the generator yields.
    The list [l] is not changed while the generator is consumed, so
    yielding lazily and yielding at once give the same chunks. *)
Definition chunks (l : list A) (n : Z) : result (list (list A)) :=
  match Py.range 0 (Z.of_nat (length l)) n with
  | Return indices => Return ((λ i, Py.slice l i (i + n)) <$> indices)
  | Raise e => Raise e
  end.

(** What the coroutine [insert_json_file(collection, f)] ends with:
    [None] when it completes, or the exception it fails with. *)
Variable insert_json_file : A → option exn.

(** [yield gen.multi(insert_json_file(collection, f) for f in chunk)].
    Tornado starts every coroutine of the chunk and waits for them;
    when some fail, the first failure in the order of the chunk is
    raised.  [started] logs the units started so far. *)
Definition multi (chunk : list A) (started : list A)
  : result unit * list A :=
  (match head (omap insert_json_file chunk) with
   | None => Return ()
   | Some e => Raise e
   end, started ++ chunk).

(** The loop [for chunk in ...: yield gen.multi(...)]. *)
Fixpoint for_chunks (cs : list (list A)) (started : list A)
  : result unit * list A :=
  match cs with
  | [] => (Return (), started)
  | chunk :: cs' =>
      match multi chunk started with
      | (Return _, started') => for_chunks cs' started'
      | (Raise e, started') => (Raise e, started')
      end
  end.

Definition insert_json_files (files : list A) (started : list A)
  : result unit * list A :=
  match chunks files 20 with
  | Return cs => for_chunks cs started
  | Raise e => (Raise e, started)
  end.

End batch.

(** The [k]-th chunk of [l] for chunk size [n], and the number of
    chunks of a list of [len] elements. *)
Definition nth_chunk {A} (l : list A) (n k : nat) : list A :=
  take n (drop (k * n) l).

Definition chunk_count (len n : nat) : nat :=
  Z.to_nat ((Z.of_nat len + Z.of_nat n - 1) / Z.of_nat n).

(** ** The module constants *)

(** [os.environ.get('FAST_PERF_TESTS')] is taken as true when the
    variable is set to a string that is not empty. *)
Definition fast_perf_tests (environ : gmap string string) : bool :=
  match environ !! "FAST_PERF_TESTS" with
  | Some v => negb (String.eqb v EmptyString)
  | None => false
  end.

Definition NUM_ITERATIONS (environ : gmap string string) : nat :=
  if fast_perf_tests environ then 1 else 100.

(** In seconds. *)
Definition MAX_ITERATION_TIME (environ : gmap string string) : Z :=
  if fast_perf_tests environ then 30 else 300.

Definition NUM_DOCS (environ : gmap string string) : Z :=
  if fast_perf_tests environ then 10 else 10000.

(** ** The durations of a run *)

(** The durations of the first [k] rounds of the loop of [runTest],
    when the test of the first round takes clock reading number [u]:
    round [j] reads the clock at [u + 3j] for its test, at [u + 3j + 1]
    on entering the timer and at [u + 3j + 2] on leaving it. *)
Definition loop_durations (clock : nat → Z) (u k : nat) : list Z :=
  (λ j, clock (3 * j + 2 + u)%nat - clock (3 * j + 1 + u)%nat) <$> seq 0 k.

(** The sum of a list of durations. *)
Definition total (ds : list Z) : Z := foldr Z.add 0 ds.

(** A clock that is never set back. *)
Definition monotone (clock : nat → Z) : Prop :=
  ∀ i j, (i ≤ j)%nat → clock i ≤ clock j.

(** ** The tasks of the scenarios *)

Section tasks.
Context {X : Type}.

(** What the operation awaited at a [yield] ends with for the loop item
    [x]: [None] when it completes, or the exception it fails with. *)
Variable op : X → option exn.

(** [for x in xs: yield op(x)], the loop of the single-document tasks:
    every operation is awaited before the next one is issued, and an
    exception leaves the loop.  [issued] logs the operations issued. *)
Fixpoint for_yield (xs : list X) (issued : list X) : result unit * list X :=
  match xs with
  | [] => (Return (), issued)
  | x :: xs' =>
      match op x with
      | None => for_yield xs' (issued ++ [x])
      | Some e => (Raise e, issued ++ [x])
      end
  end.

(** [TestFindOneByID.do_task], [TestSmallDocInsertOne.do_task] and
    [TestLargeDocInsertOne.do_task]: one operation for each element of
    a list the scenario holds. *)
Definition TestFindOneByID_do_task (inserted_ids : list X) (issued : list X)
  : result unit * list X :=
  for_yield inserted_ids issued.

(** [TestGridFsMultiFileUpload.do_task] and
    [TestGridFsMultiFileDownload.do_task]: one [gen.multi] over all the
    files. *)
Definition TestGridFsMultiFileUpload_do_task (files : list X) (started : list X)
  : result unit * list X :=
  multi op files started.

(** [TestJsonMultiImport.setUp]: the files of the directory listing,
    cut to [self.files[:10]] in the fast mode. *)
Definition TestJsonMultiImport_files (fast : bool) (listing : list X) : list X :=
  if fast then Py.slice listing 0 10 else listing.

End tasks.

(** [TestRunCommand.do_task]: [for _ in range(NUM_DOCS): yield
    admin.command(isMaster)].  [command i] is what the command of round
    [i] ends with. *)
Definition TestRunCommand_do_task (command : Z → option exn) (NUM_DOCS : Z)
    (issued : list Z) : result unit * list Z :=
  match Py.range 0 NUM_DOCS 1 with
  | Return rounds => for_yield command rounds issued
  | Raise e => (Raise e, issued)
  end.

(** ** [insert_json_file] *)

Section json_file.
Context {Doc : Type}.

(** [open(filename, 'r')] read to its end: the lines of the file, or
    the exception of [open]. *)
Variable open_file : string → result (list string).

(** [line.strip()] and [json.loads]. *)
Variable strip : string → string.
Variable json_loads : string → result Doc.

(** What [yield collection.insert(documents)] ends with. *)
Variable collection_insert : list Doc → option exn.

(** The loop [for line in data:
    documents.append(json.loads(line.strip()))]. *)
Fixpoint load_lines (lines : list string) (documents : list Doc)
  : result (list Doc) :=
  match lines with
  | [] => Return documents
  | line :: lines' =>
      match json_loads (strip line) with
      | Return doc => load_lines lines' (documents ++ [doc])
      | Raise e => Raise e
      end
  end.

(** [insert_json_file(collection, filename)].  [inserts] logs the
    arguments of the calls of [collection.insert]. *)
Definition insert_json_file (filename : string) (inserts : list (list Doc))
  : result unit * list (list Doc) :=
  match open_file filename with
  | Raise e => (Raise e, inserts)
  | Return lines =>
      match load_lines lines [] with
      | Raise e => (Raise e, inserts)
      | Return documents =>
          (match collection_insert documents with
           | None => Return ()
           | Some e => Raise e
           end, inserts ++ [documents])
      end
  end.

End json_file.

(** The index [percentile] computes is a position of the sorted
    samples that the indexing operation can read. *)
Definition index_in_bounds (samples : list Z) (p : Z) : Prop :=
  Py.valid_index (Py.sorted samples) (percentile_index (Py.sorted samples) p).

(** ** The claims the code does not meet, as the specification words them *)

(** C1: the element returned is the one at the clamped index. *)
Definition returns_clamped (samples : list Z) (p : Z) : Prop :=
  percentile (with_results samples) p = percentile_clamped samples p.

(** C3: a percentile outside [0 .. 100] makes [percentile] raise. *)
Definition rejects_percentile (samples : list Z) (p : Z) : Prop :=
  (p < 0 ∨ 100 < p) → ∃ e, percentile (with_results samples) p = Raise e.

(** C4: with a million iterations allowed and a budget of 0, a run in
    which the hooks never fail ends with exactly one duration. *)
Definition one_duration_run (clock : nat → Z) (s : State) : Prop :=
  ∃ d s', runTest clock (λ _, None) (λ _, None) (N.to_nat 1000000) 0 s
          = (Return (), s') ∧
          results (self s') = Some [d].


(** ** Facts about the built-ins *)

Section getitem_facts.
Context {A : Type}.
Implicit Types (l : list A) (i : Z) (x : A).

Lemma getitem_nonneg l i x :
  0 ≤ i → l !! Z.to_nat i = Some x → Py.getitem l i = Return x.
Proof.
  intros Hi Hx. unfold Py.getitem.
  destruct (Z.ltb_spec i 0) as [?|_]; [lia|].
  destruct (Z.ltb_spec i 0) as [?|_]; [lia|].
  by rewrite Hx.
Qed.

Lemma getitem_negative l i x :
  - Z.of_nat (length l) ≤ i < 0 →
  l !! Z.to_nat (i + Z.of_nat (length l)) = Some x →
  Py.getitem l i = Return x.
Proof.
  intros Hi Hx. unfold Py.getitem.
  destruct (Z.ltb_spec i 0) as [_|?]; [|lia].
  destruct (Z.ltb_spec (i + Z.of_nat (length l)) 0) as [?|_]; [lia|].
  by rewrite Hx.
Qed.

Lemma getitem_last l x :
  last l = Some x → Py.getitem l (-1) = Return x.
Proof.
  intros Hl. apply getitem_negative.
  - destruct l; [done|]. simpl length. lia.
  - rewrite last_lookup in Hl.
    destruct l as [|y l]; [done|].
    replace (Z.to_nat (-1 + Z.of_nat (length (y :: l))))
      with (pred (length (y :: l))) by (simpl length; lia).
    done.
Qed.

Lemma getitem_Return l i x :
  Py.getitem l i = Return x → Py.valid_index l i ∧ x ∈ l.
Proof.
  unfold Py.getitem, Py.valid_index.
  destruct (Z.ltb_spec i 0) as [Hneg|Hpos];
    (match goal with |- context [?p <? 0] => destruct (Z.ltb_spec p 0) end;
     [done|]);
    match goal with
    | |- context [l !! ?n] => destruct (l !! n) as [y|] eqn:Hy; [|done]
    end;
    intros [= ->]; (split; [|by eapply list_elem_of_lookup_2]);
    apply lookup_lt_Some in Hy; lia.
Qed.

Lemma getitem_valid l i :
  Py.valid_index l i → ∃ x, Py.getitem l i = Return x.
Proof.
  unfold Py.valid_index. intros Hi.
  destruct (Z.ltb_spec i 0) as [Hneg|Hpos].
  - destruct (lookup_lt_is_Some_2 l (Z.to_nat (i + Z.of_nat (length l))))
      as [x Hx]; [lia|].
    exists x. apply getitem_negative; [lia|done].
  - destruct (lookup_lt_is_Some_2 l (Z.to_nat i)) as [x Hx]; [lia|].
    exists x. by apply getitem_nonneg.
Qed.

Lemma getitem_invalid l i :
  ¬ Py.valid_index l i → Py.getitem l i = Raise IndexError.
Proof.
  intros Hi. destruct (Py.getitem l i) as [x|e] eqn:Hg.
  - apply getitem_Return in Hg as [? _]. done.
  - revert Hg. unfold Py.getitem.
    repeat match goal with
           | |- context [?p <? 0] => destruct (p <? 0)
           | |- context [l !! ?n] => destruct (l !! n)
           end; congruence.
Qed.

Lemma getitem_Return_nonneg l i x :
  0 ≤ i → Py.getitem l i = Return x → l !! Z.to_nat i = Some x.
Proof.
  intros Hi Hg. destruct (l !! Z.to_nat i) as [y|] eqn:Hl.
  - rewrite (getitem_nonneg l i y Hi Hl) in Hg. congruence.
  - apply lookup_ge_None in Hl. rewrite getitem_invalid in Hg; [done|].
    unfold Py.valid_index. lia.
Qed.

(** The element [l[i]] returns is the one at position [i], counted
    from the end when [i] is negative. *)
Lemma getitem_Return_lookup l i x :
  Py.getitem l i = Return x →
  l !! Z.to_nat (if i <? 0 then i + Z.of_nat (length l) else i) = Some x.
Proof.
  unfold Py.getitem.
  destruct (i <? 0);
    (match goal with |- context [?q <? 0] => destruct (q <? 0) end; [done|]);
    match goal with
    | |- context [l !! ?n] => destruct (l !! n) as [y|]; [|done]
    end; congruence.
Qed.
End getitem_facts.

Section sorted_facts.
Implicit Types (l : list Z) (x d : Z).

Lemma sorted_Permutation l : Py.sorted l ≡ₚ l.
Proof. apply merge_sort_Permutation. Qed.

Lemma sorted_length l : length (Py.sorted l) = length l.
Proof. by rewrite sorted_Permutation. Qed.

Lemma sorted_elem_of l x : x ∈ Py.sorted l ↔ x ∈ l.
Proof. by rewrite sorted_Permutation. Qed.

Lemma sorted_StronglySorted l : StronglySorted Z.le (Py.sorted l).
Proof. apply (StronglySorted_merge_sort Z.le). Qed.

(** In an ascending list, positions and values are ordered alike. *)
Lemma StronglySorted_lookup_le l (i j : nat) x y :
  StronglySorted Z.le l → (i ≤ j)%nat →
  l !! i = Some x → l !! j = Some y → x ≤ y.
Proof.
  intros Hs. revert i j. induction Hs as [|a l Hs IH Ha]; intros i j Hij Hi Hj.
  - done.
  - destruct i as [|i], j as [|j]; simpl in *.
    + naive_solver lia.
    + injection Hi as ->. rewrite Forall_forall in Ha.
      apply Ha. by eapply list_elem_of_lookup_2.
    + lia.
    + apply (IH i j); [lia|done..].
Qed.

Lemma sorted_last_is_maximum l d :
  last (Py.sorted l) = Some d → is_maximum d l.
Proof.
  intros Hd. split.
  - apply sorted_elem_of. by apply last_Some_elem_of.
  - intros x Hx. apply sorted_elem_of, list_elem_of_lookup_1 in Hx as [i Hi].
    rewrite last_lookup in Hd.
    eapply (StronglySorted_lookup_le _ i); [apply sorted_StronglySorted| |done..].
    apply lookup_lt_Some in Hi. lia.
Qed.

Lemma sorted_last_nonempty l : l ≠ [] → ∃ d, last (Py.sorted l) = Some d.
Proof.
  intros Hl. destruct (last (Py.sorted l)) as [d|] eqn:Hd; [by exists d|].
  apply last_None in Hd. apply (f_equal length) in Hd.
  rewrite sorted_length in Hd. by destruct l.
Qed.
End sorted_facts.

(** ** [percentile] *)

Section percentile_facts.
Implicit Types (S : list Z) (p d : Z).

Lemma percentile_unfold S p :
  percentile (with_results S) p
  = Py.getitem (Py.sorted S) (percentile_index (Py.sorted S) p).
Proof. reflexivity. Qed.

Lemma percentile_index_length S p :
  percentile_index (Py.sorted S) p = Z.of_nat (length S) * p / 100 - 1.
Proof. unfold percentile_index. by rewrite sorted_length. Qed.

(** For a percentile in [0 .. 100] the raw index stays in
    [-1 .. len-1]. *)
Lemma percentile_index_bounds S p :
  0 ≤ p ≤ 100 →
  -1 ≤ percentile_index (Py.sorted S) p ≤ Z.of_nat (length S) - 1.
Proof.
  intros Hp. rewrite percentile_index_length.
  set (n := Z.of_nat (length S)).
  assert (0 ≤ n) by lia.
  assert (0 ≤ n * p / 100) by (apply Z.div_pos; nia).
  assert (n * p / 100 ≤ n); [|lia].
  apply Z.div_le_upper_bound; nia.
Qed.

Lemma percentile_index_100 S :
  percentile_index (Py.sorted S) 100 = Z.of_nat (length S) - 1.
Proof. rewrite percentile_index_length, Z.div_mul; lia. Qed.

Lemma percentile_index_valid S p :
  S ≠ [] → 0 ≤ p ≤ 100 →
  Py.valid_index (Py.sorted S) (percentile_index (Py.sorted S) p).
Proof.
  intros HS Hp. pose proof (percentile_index_bounds S p Hp).
  unfold Py.valid_index. rewrite sorted_length.
  destruct S; [done|]. simpl length in *. lia.
Qed.

(** The wrap-around case: raw index [-1] is the last position. *)
Lemma percentile_wraps S p d :
  percentile_index (Py.sorted S) p = -1 →
  last (Py.sorted S) = Some d →
  percentile (with_results S) p = Return d.
Proof.
  intros Hi Hd. rewrite percentile_unfold, Hi. by apply getitem_last.
Qed.

Lemma percentile_at S p d :
  0 ≤ percentile_index (Py.sorted S) p →
  Py.sorted S !! Z.to_nat (percentile_index (Py.sorted S) p) = Some d →
  percentile (with_results S) p = Return d.
Proof. intros. rewrite percentile_unfold. by apply getitem_nonneg. Qed.

Lemma percentile_Return_elem_of S p d :
  percentile (with_results S) p = Return d → d ∈ S.
Proof.
  rewrite percentile_unfold. intros [_ Hd]%getitem_Return.
  by apply sorted_elem_of.
Qed.

Lemma percentile_total S p :
  S ≠ [] → 0 ≤ p ≤ 100 → ∃ d, percentile (with_results S) p = Return d.
Proof.
  intros HS Hp. rewrite percentile_unfold.
  by apply getitem_valid, percentile_index_valid.
Qed.
End percentile_facts.

(** *** C1 *)

(** C1, as stated, fails: for the three samples 3, 1, 2 and percentile
    0 the raw index is -1; the code returns the last element of the
    sorted samples, 3, where the clamped index 0 designates 1. *)
Lemma percentile_not_clamped : ¬ returns_clamped [3; 1; 2] 0.
Proof. unfold returns_clamped. vm_compute. discriminate. Qed.

(** C1, amended: for non-empty samples and a percentile in [0 .. 100],
    [percentile] sorts the samples ascending and returns the element at
    index [len * p / 100 - 1] when that index is not negative; when it
    is negative it is -1, no clamping takes place, and the element
    returned is the last of the sorted samples, the largest sample. *)
Theorem percentile_nearest_rank (samples : list Z) (p : Z) :
  samples ≠ [] → 0 ≤ p ≤ 100 →
  let raw := Z.of_nat (length samples) * p / 100 - 1 in
  ∃ d, percentile (with_results samples) p = Return d ∧
       (0 ≤ raw → Py.sorted samples !! Z.to_nat raw = Some d) ∧
       (raw < 0 → raw = -1 ∧ last (Py.sorted samples) = Some d ∧
                  is_maximum d samples).
Proof.
  intros HS Hp raw.
  pose proof (percentile_index_bounds samples p Hp) as Hb.
  pose proof (percentile_index_length samples p) as Hraw. fold raw in Hraw.
  rewrite Hraw in Hb.
  destruct (decide (0 ≤ raw)) as [Hpos|Hneg].
  - destruct (lookup_lt_is_Some_2 (Py.sorted samples) (Z.to_nat raw))
      as [d Hd]; [rewrite sorted_length; lia|].
    exists d. split_and!; [|done|lia].
    apply percentile_at; by rewrite Hraw.
  - destruct (sorted_last_nonempty samples HS) as [d Hd].
    exists d. split_and!; [|lia|].
    + apply percentile_wraps; [rewrite Hraw; lia|done].
    + intros _. split_and!; [lia|done|by apply sorted_last_is_maximum].
Qed.

Lemma percentile_nearest_rank_witness :
  ∃ d, percentile (with_results [3; 1; 2]) 0 = Return d ∧
       (0 ≤ -1 → Py.sorted [3; 1; 2] !! Z.to_nat (-1) = Some d) ∧
       (-1 < 0 → -1 = -1 ∧ last (Py.sorted [3; 1; 2]) = Some d ∧
                 is_maximum d [3; 1; 2]).
Proof. apply (percentile_nearest_rank [3; 1; 2] 0); [discriminate|lia]. Defined.

(** *** C2 *)

(** C2: for non-empty samples and a percentile in [1 .. 100],
    [percentile] returns one of the samples, and for percentile 100 it
    returns their maximum. *)
Theorem percentile_member_and_max (samples : list Z) (p : Z) :
  samples ≠ [] → 1 ≤ p ≤ 100 →
  ∃ d, percentile (with_results samples) p = Return d ∧
       d ∈ samples ∧
       (p = 100 → is_maximum d samples).
Proof.
  intros HS Hp.
  destruct (percentile_total samples p HS) as [d Hd]; [lia|].
  exists d. split_and!; [done|by eapply percentile_Return_elem_of|].
  intros ->. apply sorted_last_is_maximum.
  rewrite percentile_unfold, percentile_index_100 in Hd.
  apply getitem_Return_nonneg in Hd; [|destruct samples; [done|simpl length; lia]].
  rewrite last_lookup, sorted_length.
  by replace (pred (length samples))
    with (Z.to_nat (Z.of_nat (length samples) - 1)) by lia.
Qed.

Lemma percentile_member_and_max_witness :
  ∃ d, percentile (with_results [4; 9; 1; 7]) 100 = Return d ∧
       d ∈ [4; 9; 1; 7] ∧
       (100 = 100 → is_maximum d [4; 9; 1; 7]).
Proof.
  apply (percentile_member_and_max [4; 9; 1; 7] 100); [discriminate|lia].
Defined.

(** *** C3 *)

(** C3, as stated, fails: with the single sample 7 and percentile 150
    the index is [1 * 150 / 100 - 1 = 0] and 7 is returned. *)
Lemma percentile_150_returns : ¬ rejects_percentile [7] 150.
Proof.
  intros H. destruct H as [e He]; [lia|]. vm_compute in He. discriminate.
Qed.

(** C3, amended: [percentile] does not check its argument.  For an
    integer percentile (a Python 2 [int], so that [/] is floor
    division) below 0 or above 100 it raises [IndexError] (there is no
    dedicated error) exactly when the index [i = len * p / 100 - 1]
    falls outside [-len .. len-1], which includes every empty
    sequence; otherwise it returns the element of the sorted sequence
    at index [i], counted from the end when [i] is negative (position
    [i + len]), which is one of the samples. *)
Theorem percentile_unchecked (samples : list Z) (p : Z) :
  p < 0 ∨ 100 < p →
  let i := percentile_index (Py.sorted samples) p in
  (¬ Py.valid_index (Py.sorted samples) i →
     percentile (with_results samples) p = Raise IndexError) ∧
  (Py.valid_index (Py.sorted samples) i →
     ∃ d, percentile (with_results samples) p = Return d ∧
          Py.sorted samples
            !! Z.to_nat (if i <? 0 then i + Z.of_nat (length samples) else i)
          = Some d ∧
          d ∈ samples) ∧
  (samples = [] → percentile (with_results samples) p = Raise IndexError).
Proof.
  intros _ i. split_and!.
  - intros Hi. rewrite percentile_unfold. by apply getitem_invalid.
  - intros Hi. destruct (getitem_valid _ _ Hi) as [d Hd].
    assert (percentile (with_results samples) p = Return d) as Hp
      by (by rewrite percentile_unfold).
    exists d. split_and!; [done| |by eapply percentile_Return_elem_of].
    apply getitem_Return_lookup in Hd. by rewrite sorted_length in Hd.
  - intros ->. rewrite percentile_unfold. apply getitem_invalid.
    unfold Py.valid_index. rewrite sorted_length. simpl. lia.
Qed.

Lemma percentile_unchecked_witness :
  let i := percentile_index (Py.sorted [7; 8]) (-50) in
  (¬ Py.valid_index (Py.sorted [7; 8]) i →
     percentile (with_results [7; 8]) (-50) = Raise IndexError) ∧
  (Py.valid_index (Py.sorted [7; 8]) i →
     ∃ d, percentile (with_results [7; 8]) (-50) = Return d ∧
          Py.sorted [7; 8]
            !! Z.to_nat (if i <? 0 then i + Z.of_nat (length [7; 8]) else i)
          = Some d ∧
          d ∈ [7; 8]) ∧
  ([7; 8] = [] → percentile (with_results [7; 8]) (-50) = Raise IndexError).
Proof. apply (percentile_unchecked [7; 8] (-50)). left. lia. Defined.

(** *** C8 *)

(** Refutes a closed instance of [index_in_bounds] by evaluation. *)
Ltac refute_bounds :=
  unfold index_in_bounds, Py.valid_index, percentile_index;
  rewrite sorted_length;
  let H1 := fresh in
  let H2 := fresh in
  intros [H1 H2]; vm_compute in H1, H2;
  first [discriminate H2 | by apply H1].

(** C8: for every collected sequence and every percentile request,
    the percentile computation never reads outside the bounds of the
    sorted sequence.  A value is returned only when the index computed
    is a valid position of the sorted sequence, and an index that is no
    valid position (as on an empty sequence) makes the indexing
    operation raise [IndexError] without reading an element.  For a
    non-empty sequence and a percentile in [0 .. 100] the index is
    always a valid position (-1 designating the last element). *)
Theorem percentile_index_safe (samples : list Z) (p : Z) :
  (samples ≠ [] → 0 ≤ p ≤ 100 → index_in_bounds samples p) ∧
  (∀ d, percentile (with_results samples) p = Return d →
        index_in_bounds samples p) ∧
  (¬ index_in_bounds samples p →
     percentile (with_results samples) p = Raise IndexError).
Proof.
  split_and!.
  - apply percentile_index_valid.
  - intros d Hd. rewrite percentile_unfold in Hd.
    by apply getitem_Return in Hd as [? _].
  - intros Hi. rewrite percentile_unfold. by apply getitem_invalid.
Qed.

Lemma percentile_index_safe_witness :
  index_in_bounds [3; 1; 2] 50 ∧
  percentile (with_results [7]) 200 = Raise IndexError.
Proof.
  split.
  - apply (percentile_index_safe [3; 1; 2] 50); [discriminate|lia].
  - apply (percentile_index_safe [7] 200). refute_bounds.
Defined.

(** *** C10 *)

(** C10: for non-empty samples and a percentile in [0 .. 100] with
    [len * p / 100 = 0], the index is -1 and [percentile] returns the
    last element of the sorted samples, the largest sample. *)
Theorem percentile_low_rank_is_largest (samples : list Z) (p : Z) :
  samples ≠ [] → 0 ≤ p ≤ 100 →
  Z.of_nat (length samples) * p / 100 = 0 →
  ∃ d, percentile (with_results samples) p = Return d ∧
       last (Py.sorted samples) = Some d ∧
       is_maximum d samples.
Proof.
  intros HS Hp H0.
  destruct (sorted_last_nonempty samples HS) as [d Hd].
  exists d. split_and!; [|done|by apply sorted_last_is_maximum].
  apply percentile_wraps; [|done].
  rewrite percentile_index_length, H0. lia.
Qed.

Lemma percentile_low_rank_is_largest_witness :
  ∃ d, percentile (with_results [3; 1; 2]) 20 = Return d ∧
       last (Py.sorted [3; 1; 2]) = Some d ∧
       is_maximum d [3; 1; 2].
Proof.
  apply (percentile_low_rank_is_largest [3; 1; 2] 20);
    [discriminate|lia|reflexivity].
Defined.

(** The low-rank condition of C10 is the condition [p < 100 / len] on
    rationals: [len * p < 100]. *)
Lemma low_rank_iff (len p : Z) :
  0 ≤ len → 0 ≤ p → (len * p / 100 = 0 ↔ len * p < 100).
Proof.
  intros Hl Hp. split.
  - intros H. apply Z.div_small_iff in H; [|lia]. lia.
  - intros H. apply Z.div_small. nia.
Qed.

(** ** [Timer] and [runTest] *)

Section harness_facts.
Variables (clock : nat → Z) (before_hook do_task : nat → option exn).
Variable MAX_ITERATION_TIME : Z.

Local Abbreviation iterate :=
  (iterate clock before_hook do_task MAX_ITERATION_TIME).

Implicit Types (s : State) (n : nat) (rs : list Z).

Lemma advance_advance a b c a' b' c' s :
  advance a b c (advance a' b' c' s)
  = advance (a + a') (b + b') (c + c') s.
Proof. unfold advance. simpl. f_equal; lia. Qed.

Lemma with_Timer_returns (body : M unit) s s2 :
  body (advance 1 0 0 s) = (Return (), s2) →
  with_Timer clock body s
  = (Return {| start := Some (clock (ticks s));
               end_ := Some (clock (ticks s2));
               interval := Some (clock (ticks s2) - clock (ticks s)) |},
     advance 1 0 0 s2).
Proof.
  intros Hb. unfold with_Timer, Timer_enter, mbind, M_bind, time. simpl.
  by rewrite Hb.
Qed.

Lemma with_Timer_raises (body : M unit) s s2 e :
  body (advance 1 0 0 s) = (Raise e, s2) →
  with_Timer clock body s = (Raise e, advance 1 0 0 s2).
Proof.
  intros Hb. unfold with_Timer, Timer_enter, mbind, M_bind, time. simpl.
  by rewrite Hb.
Qed.

(** The budget is spent: the loop leaves at the test. *)
Lemma iterate_break n start rs s :
  MAX_ITERATION_TIME < clock (ticks s) - start →
  iterate (S n) start rs s = (Return rs, advance 1 0 0 s).
Proof.
  intros Hlt. simpl. unfold mbind, M_bind, time.
  rewrite Z.gtb_ltb. by destruct (Z.ltb_spec MAX_ITERATION_TIME
    (clock (ticks s) - start)); [|lia].
Qed.

(** One full round: the test, [before], the timed task, the append. *)
Lemma iterate_round n start rs s :
  clock (ticks s) - start ≤ MAX_ITERATION_TIME →
  before_hook (before_calls s) = None →
  do_task (task_calls s) = None →
  iterate (S n) start rs s
  = iterate n start (rs ++ [clock (2 + ticks s)%nat - clock (1 + ticks s)%nat])
      (advance 3 1 1 s).
Proof.
  intros Hle Hb Ht. simpl. unfold mbind at 1, M_bind at 1, time at 1.
  rewrite Z.gtb_ltb.
  destruct (Z.ltb_spec MAX_ITERATION_TIME (clock (ticks s) - start)); [lia|].
  unfold mbind at 1, M_bind at 1, before. simpl. rewrite Hb.
  unfold mbind at 1, M_bind at 1.
  rewrite (with_Timer_returns _ _ (advance 1 0 1 (advance 0 1 0 (advance 1 0 0 s)))).
  - unfold mbind at 1, M_bind at 1, get_interval. simpl.
    rewrite !advance_advance. reflexivity.
  - unfold run_sync_do_task. simpl. rewrite Ht.
    by rewrite !advance_advance.
Qed.

(** A round whose task fails: the timer is closed, the exception goes
    on, nothing is appended. *)
Lemma iterate_task_raises n start rs s e :
  clock (ticks s) - start ≤ MAX_ITERATION_TIME →
  before_hook (before_calls s) = None →
  do_task (task_calls s) = Some e →
  iterate (S n) start rs s = (Raise e, advance 3 1 1 s).
Proof.
  intros Hle Hb Ht. simpl. unfold mbind at 1, M_bind at 1, time at 1.
  rewrite Z.gtb_ltb.
  destruct (Z.ltb_spec MAX_ITERATION_TIME (clock (ticks s) - start)); [lia|].
  unfold mbind at 1, M_bind at 1, before. simpl. rewrite Hb.
  unfold mbind at 1, M_bind at 1.
  rewrite (with_Timer_raises _ _ (advance 1 0 1 (advance 0 1 0 (advance 1 0 0 s))) e).
  - by rewrite !advance_advance.
  - unfold run_sync_do_task. simpl. rewrite Ht.
    by rewrite !advance_advance.
Qed.

Lemma runTest_unfold NUM_ITERATIONS s :
  runTest clock before_hook do_task NUM_ITERATIONS MAX_ITERATION_TIME s
  = match iterate NUM_ITERATIONS (clock (ticks s)) []
            (loop_entry NUM_ITERATIONS s) with
    | (Return rs, s') =>
        (Return (),
         {| ticks := ticks s'; before_calls := before_calls s';
            task_calls := task_calls s';
            self := {| results := Some rs;
                       max_iterations := max_iterations (self s') |} |})
    | (Raise e, s') => (Raise e, s')
    end.
Proof. reflexivity. Qed.
End harness_facts.

(** *** C9 *)




(** *** C4 *)

Lemma million_iterations : ∃ m, N.to_nat 1000000 = S (S m).
Proof. exists (N.to_nat 999998). lia. Qed.

Section zero_budget.
Variables (clock : nat → Z) (before_hook do_task : nat → option exn).
Implicit Types (s : State) (n : nat).

(** The clock has moved on at the first test: no iteration runs. *)
Lemma runTest_budget_spent_at_entry n budget s :
  budget < clock (S (ticks s)) - clock (ticks s) →
  ∃ s', runTest clock before_hook do_task (S n) budget s = (Return (), s') ∧
        results (self s') = Some [] ∧
        task_calls s' = task_calls s.
Proof.
  intros Hlt. rewrite runTest_unfold, iterate_break; [|done].
  eexists. split; [reflexivity|]. done.
Qed.

(** The clock stands still up to the first test and has moved on at
    the second: exactly one iteration runs. *)
Lemma runTest_one_round n budget s :
  before_hook (before_calls s) = None →
  do_task (task_calls s) = None →
  clock (1 + ticks s)%nat - clock (ticks s) ≤ budget →
  budget < clock (4 + ticks s)%nat - clock (ticks s) →
  ∃ s', runTest clock before_hook do_task (S (S n)) budget s
        = (Return (), s') ∧
        results (self s')
        = Some [clock (3 + ticks s)%nat - clock (2 + ticks s)%nat] ∧
        task_calls s' = S (task_calls s).
Proof.
  intros Hb Ht H1 H2.
  rewrite runTest_unfold, iterate_round, iterate_break; [|done..].
  eexists. split; [reflexivity|]. done.
Qed.
End zero_budget.

(** C4, as stated, fails: when the clock advances between the reading
    [start = time()] and the test of the first iteration, the elapsed
    time already exceeds the budget 0 and the loop is left before any
    iteration: the result holds no duration. *)
Lemma zero_budget_no_duration : ¬ one_duration_run ticking_clock initial_state.
Proof.
  intros (d & s' & Hrun & Hres).
  destruct million_iterations as [m Hm]. rewrite Hm in Hrun.
  destruct (runTest_budget_spent_at_entry ticking_clock (λ _, None) (λ _, None)
              (S m) 0 initial_state) as (s'' & Hrun' & Hres' & _);
    [unfold ticking_clock; simpl; lia|].
  rewrite Hrun in Hrun'. injection Hrun' as <-. congruence.
Qed.

(** C4, amended: with 1000000 iterations allowed and a budget of 0,
    the test [elapsed > budget] is made at the start of every
    iteration, the first one included, and only there.  When the clock
    reading of the first test is not later than the start reading and
    the reading of the second test is later, the run completes with
    exactly 1 duration: the first iteration runs to its end and the
    loop is left at the start of the second.  When the clock has
    already advanced at the first test, the run completes with no
    duration at all. *)
Theorem runTest_zero_budget (clock : nat → Z)
    (before_hook do_task : nat → option exn) (s : State) :
  before_hook (before_calls s) = None →
  do_task (task_calls s) = None →
  let t := ticks s in
  let run := runTest clock before_hook do_task (N.to_nat 1000000) 0 s in
  (clock (1 + t)%nat ≤ clock t → clock t < clock (4 + t)%nat →
     ∃ s', run = (Return (), s') ∧
           results (self s') = Some [clock (3 + t)%nat - clock (2 + t)%nat] ∧
           task_calls s' = S (task_calls s)) ∧
  (clock t < clock (1 + t)%nat →
     ∃ s', run = (Return (), s') ∧
           results (self s') = Some [] ∧
           task_calls s' = task_calls s).
Proof.
  intros Hb Ht t run. subst t run.
  destruct million_iterations as [m ->]. split.
  - intros H1 H2. apply runTest_one_round; [done..|lia|lia].
  - intros H1. apply runTest_budget_spent_at_entry. simpl in H1. lia.
Qed.

Lemma runTest_zero_budget_witness :
  (∃ s', runTest coarse_clock (λ _, None) (λ _, None) (N.to_nat 1000000) 0
           initial_state = (Return (), s') ∧
         results (self s') = Some [1] ∧
         task_calls s' = 1%nat) ∧
  (∃ s', runTest ticking_clock (λ _, None) (λ _, None) (N.to_nat 1000000) 0
           initial_state = (Return (), s') ∧
         results (self s') = Some [] ∧
         task_calls s' = 0%nat).
Proof.
  split.
  - apply (runTest_zero_budget coarse_clock (λ _, None) (λ _, None)
             initial_state eq_refl eq_refl); vm_compute; congruence.
  - apply (runTest_zero_budget ticking_clock (λ _, None) (λ _, None)
             initial_state eq_refl eq_refl); reflexivity.
Defined.

(** *** C5 *)



(** ** [chunks] and [insert_json_files] *)

Section chunks_facts.
Context {A : Type}.
Implicit Types (l : list A) (n k c : nat).

Lemma slice_nth_chunk l n k :
  Py.slice l (0 + Z.of_nat k * Z.of_nat n) (0 + Z.of_nat k * Z.of_nat n + Z.of_nat n)
  = nth_chunk l n k.
Proof.
  unfold Py.slice, nth_chunk.
  destruct (Z.ltb_spec (0 + Z.of_nat k * Z.of_nat n) 0) as [?|_]; [lia|].
  destruct (Z.ltb_spec (0 + Z.of_nat k * Z.of_nat n + Z.of_nat n) 0)
    as [?|_]; [lia|].
  destruct (decide (k * n ≤ length l)%nat) as [Hle|Hgt].
  - replace (Z.to_nat (Z.min (0 + Z.of_nat k * Z.of_nat n) (Z.of_nat (length l))))
      with (k * n)%nat by lia.
    replace (Z.to_nat (Z.min (0 + Z.of_nat k * Z.of_nat n + Z.of_nat n)
                             (Z.of_nat (length l))
                       - Z.min (0 + Z.of_nat k * Z.of_nat n) (Z.of_nat (length l))))
      with (n `min` (length l - k * n))%nat by lia.
    rewrite <-take_take. f_equal. apply take_ge. rewrite length_drop. lia.
  - rewrite (drop_ge l (k * n)) by lia.
    replace (Z.to_nat (Z.min (0 + Z.of_nat k * Z.of_nat n) (Z.of_nat (length l))))
      with (length l) by lia.
    rewrite drop_ge by lia. by rewrite !take_nil.
Qed.

Lemma chunks_positive l n :
  (0 < n)%nat →
  chunks l (Z.of_nat n)
  = Return (nth_chunk l n <$> seq 0 (chunk_count (length l) n)).
Proof.
  intros Hn. unfold chunks, Py.range, chunk_count.
  destruct (Z.eqb_spec (Z.of_nat n) 0) as [?|_]; [lia|].
  destruct (Z.ltb_spec 0 (Z.of_nat n)) as [_|?]; [|lia].
  replace (Z.of_nat (length l) - 0 + Z.of_nat n - 1)
    with (Z.of_nat (length l) + Z.of_nat n - 1) by lia.
  f_equal. rewrite <-list_fmap_compose. apply list_fmap_ext.
  intros i k _. simpl. apply slice_nth_chunk.
Qed.

Lemma concat_nth_chunks l n c :
  concat (nth_chunk l n <$> seq 0 c) = take (c * n) l.
Proof.
  induction c as [|c IH]; [done|].
  rewrite seq_S, fmap_app, concat_app, IH. simpl.
  rewrite app_nil_r. unfold nth_chunk.
  rewrite take_take_drop. f_equal. lia.
Qed.

(** The chunks cover the list, and all but the last are full. *)
Lemma chunk_count_bounds len n :
  (0 < n)%nat →
  (len ≤ chunk_count len n * n)%nat ∧
  (∀ k, (S k < chunk_count len n)%nat → (S k * n ≤ len)%nat) ∧
  (∀ k, (S k = chunk_count len n)%nat → (k * n < len)%nat).
Proof.
  intros Hn. unfold chunk_count.
  set (a := Z.of_nat len + Z.of_nat n - 1).
  assert (0 ≤ a) by lia.
  pose proof (Z.div_pos a (Z.of_nat n) ltac:(lia) ltac:(lia)) as Hq.
  pose proof (Z.mul_div_le a (Z.of_nat n) ltac:(lia)) as Hlo.
  pose proof (Z.mul_succ_div_gt a (Z.of_nat n) ltac:(lia)) as Hhi.
  set (q := a / Z.of_nat n) in *.
  split_and!.
  - nia.
  - intros k Hk. nia.
  - intros k Hk. nia.
Qed.

Lemma lookup_nth_chunks l n c k chunk :
  (nth_chunk l n <$> seq 0 c) !! k = Some chunk →
  chunk = nth_chunk l n k ∧ (k < c)%nat.
Proof.
  rewrite list_lookup_fmap. intros Hk.
  destruct (seq 0 c !! k) as [j|] eqn:Hj; [|done].
  apply lookup_seq in Hj as [-> ?]. simpl in Hk. by injection Hk as <-.
Qed.

Lemma length_nth_chunk l n k :
  length (nth_chunk l n k) = (n `min` (length l - k * n))%nat.
Proof. unfold nth_chunk. by rewrite length_take, length_drop. Qed.
End chunks_facts.

Section batch_facts.
Context {A : Type} (insert_json_file : A → option exn).
Implicit Types (chunk started : list A) (cs : list (list A)) (K : nat).

Lemma omap_all_None chunk :
  (∀ u, u ∈ chunk → insert_json_file u = None) →
  omap insert_json_file chunk = [].
Proof.
  intros Hok. destruct (omap insert_json_file chunk) as [|e es] eqn:Ho; [done|].
  assert (e ∈ omap insert_json_file chunk) as He by (rewrite Ho; left).
  apply list_elem_of_omap in He as (u & Hu & Hf).
  rewrite (Hok u Hu) in Hf. done.
Qed.

Lemma multi_ok chunk started :
  (∀ u, u ∈ chunk → insert_json_file u = None) →
  multi insert_json_file chunk started = (Return (), started ++ chunk).
Proof. intros Hok. unfold multi. by rewrite omap_all_None. Qed.

(** Every unit succeeds: every chunk is run, in order. *)
Lemma for_chunks_ok cs started :
  (∀ chunk u, chunk ∈ cs → u ∈ chunk → insert_json_file u = None) →
  for_chunks insert_json_file cs started = (Return (), started ++ concat cs).
Proof.
  revert started. induction cs as [|chunk cs IH]; intros started Hok.
  - simpl. by rewrite app_nil_r.
  - cbn [for_chunks]. rewrite multi_ok.
    + rewrite IH; [by rewrite <-app_assoc|].
      intros c u Hc. apply Hok. by right.
    + intros u. apply Hok. left.
Qed.

(** Some unit fails: the loop stops at the first chunk with a failing
    unit, with the first failure of that chunk. *)
Lemma for_chunks_fails cs K chunk u e started :
  cs !! K = Some chunk → u ∈ chunk → insert_json_file u = Some e →
  ∃ K' chunk' e',
    (K' ≤ K)%nat ∧ cs !! K' = Some chunk' ∧
    head (omap insert_json_file chunk') = Some e' ∧
    for_chunks insert_json_file cs started = (Raise e', started ++ concat (take (S K') cs)).
Proof.
  revert K started. induction cs as [|c0 cs IH]; intros K started HK Hu He.
  - done.
  - destruct (head (omap insert_json_file c0)) as [e0|] eqn:Hhead.
    + exists 0%nat, c0, e0. split_and!; [lia|done|done|].
      simpl. unfold multi. rewrite Hhead. simpl.
      by rewrite app_nil_r.
    + destruct K as [|K].
      * injection HK as ->. apply head_None in Hhead.
        assert (e ∈ omap insert_json_file chunk) as Hin
          by (apply list_elem_of_omap; eauto).
        rewrite Hhead in Hin. by apply elem_of_nil in Hin.
      * destruct (IH K (started ++ c0) HK Hu He)
          as (K' & chunk' & e' & HK' & Hlook & Hfirst & Hrun).
        exists (S K'), chunk', e'. split_and!; [lia|done|done|].
        cbn [for_chunks]. unfold multi. rewrite Hhead, Hrun.
        by rewrite <-app_assoc.
Qed.

Lemma first_failure_elem_of chunk e :
  head (omap insert_json_file chunk) = Some e →
  ∃ u, u ∈ chunk ∧ insert_json_file u = Some e.
Proof.
  intros Hhead. apply head_Some_elem_of in Hhead.
  by apply list_elem_of_omap in Hhead.
Qed.
End batch_facts.

(** *** C6 *)

(** C6: for a positive chunk size [n], [chunks] cuts the units into
    contiguous chunks, in order, whose concatenation is the sequence of
    units; every chunk but the last has [n] units and the last has
    between 1 and [n]; 45 units with chunk size 20 give the sizes 20,
    20, 5; and when every unit succeeds, [insert_json_files] (chunk
    size 20) runs every unit, in order, and returns. *)
Theorem chunks_partition {A} (units : list A) (n : Z) :
  0 < n →
  ∃ cs,
    chunks units n = Return cs ∧
    concat cs = units ∧
    (∀ k chunk, cs !! k = Some chunk →
       chunk = take (Z.to_nat n) (drop (k * Z.to_nat n) units)) ∧
    (∀ k chunk, cs !! k = Some chunk → (S k < length cs)%nat →
       Z.of_nat (length chunk) = n) ∧
    (∀ chunk, last cs = Some chunk → 0 < Z.of_nat (length chunk) ≤ n) ∧
    (length units = 45%nat → n = 20 → length <$> cs = [20; 20; 5]%nat) ∧
    (∀ (insert_json_file : A → option exn) started,
       (∀ u, u ∈ units → insert_json_file u = None) →
       insert_json_files insert_json_file units started
       = (Return (), started ++ units)).
Proof.
  intros Hn.
  assert (n = Z.of_nat (Z.to_nat n)) as Hn' by lia.
  set (m := Z.to_nat n) in *. assert (0 < m)%nat as Hm by lia.
  clearbody m. subst n.
  destruct (chunk_count_bounds (length units) m Hm) as (Hcover & Hfull & Hlast).
  set (c := chunk_count (length units) m) in *.
  assert (concat (nth_chunk units m <$> seq 0 c) = units) as Hconcat
    by (rewrite concat_nth_chunks; apply take_ge; lia).
  exists (nth_chunk units m <$> seq 0 c).
  split_and!.
  - by apply chunks_positive.
  - done.
  - intros k chunk Hk. by apply lookup_nth_chunks in Hk as [-> _].
  - intros k chunk Hk Hlen. rewrite length_fmap, length_seq in Hlen.
    apply lookup_nth_chunks in Hk as [-> _].
    rewrite length_nth_chunk. specialize (Hfull k Hlen). lia.
  - intros chunk Hchunk. rewrite last_lookup, length_fmap, length_seq in Hchunk.
    apply lookup_nth_chunks in Hchunk as [-> Hlt].
    rewrite length_nth_chunk.
    specialize (Hlast (pred c) ltac:(lia)). lia.
  - intros Hlen H20. assert (m = 20%nat) as -> by lia.
    subst c. rewrite Hlen. change (chunk_count 45 20) with 3%nat.
    simpl. rewrite !length_nth_chunk, Hlen. reflexivity.
  - intros insert_json_file started Hok. unfold insert_json_files.
    change (chunks units 20) with (chunks units (Z.of_nat 20)).
    rewrite (chunks_positive units 20) by lia.
    rewrite for_chunks_ok.
    + rewrite concat_nth_chunks, take_ge; [done|].
      pose proof (chunk_count_bounds (length units) 20 ltac:(lia)). lia.
    + intros chunk u Hchunk Hu. apply Hok.
      apply list_elem_of_fmap in Hchunk as (k & -> & _).
      unfold nth_chunk in Hu.
      by eapply subseteq_drop, subseteq_take.
Qed.

Lemma chunks_partition_witness :
  ∃ cs,
    chunks (seq 0 45) 20 = Return cs ∧
    concat cs = seq 0 45 ∧
    (∀ k chunk, cs !! k = Some chunk →
       chunk = take (Z.to_nat 20) (drop (k * Z.to_nat 20) (seq 0 45))) ∧
    (∀ k chunk, cs !! k = Some chunk → (S k < length cs)%nat →
       Z.of_nat (length chunk) = 20) ∧
    (∀ chunk, last cs = Some chunk → 0 < Z.of_nat (length chunk) ≤ 20) ∧
    (length (seq 0 45) = 45%nat → 20 = 20 → length <$> cs = [20; 20; 5]%nat) ∧
    (∀ (insert_json_file : nat → option exn) started,
       (∀ u, u ∈ seq 0 45 → insert_json_file u = None) →
       insert_json_files insert_json_file (seq 0 45) started
       = (Return (), started ++ seq 0 45)).
Proof. apply (chunks_partition (seq 0 45) 20). lia. Defined.

(** *** C7 *)

(** C7: when a unit of chunk [K] fails, [insert_json_files] raises the
    failure of a failing unit: the first failure of the first chunk
    that has one, which is chunk [K] or an earlier one, and is chunk
    [K] when every unit of the earlier chunks succeeds.  The units
    started are those of the chunks up to that chunk and no others: no
    unit of a later chunk is started. *)
Theorem insert_json_files_fail_fast {A} (insert_json_file : A → option exn)
    (files : list A) (cs : list (list A)) (K : nat) (chunk : list A)
    (u : A) (e : exn) (started : list A) :
  chunks files 20 = Return cs →
  cs !! K = Some chunk → u ∈ chunk → insert_json_file u = Some e →
  ∃ K' chunk' u' e',
    (K' ≤ K)%nat ∧ cs !! K' = Some chunk' ∧
    u' ∈ chunk' ∧ insert_json_file u' = Some e' ∧
    head (omap insert_json_file chunk') = Some e' ∧
    insert_json_files insert_json_file files started
    = (Raise e', started ++ concat (take (S K') cs)) ∧
    ((∀ j cj v, (j < K)%nat → cs !! j = Some cj → v ∈ cj →
                insert_json_file v = None) → K' = K).
Proof.
  intros Hcs HK Hu He.
  destruct (for_chunks_fails insert_json_file cs K chunk u e started HK Hu He)
    as (K' & chunk' & e' & HK' & Hlook & Hfirst & Hrun).
  destruct (first_failure_elem_of insert_json_file chunk' e' Hfirst)
    as (u' & Hu' & He').
  exists K', chunk', u', e'. split_and!; [done..| |].
  - unfold insert_json_files. by rewrite Hcs.
  - intros Hearlier. destruct (decide (K' = K)) as [|Hne]; [done|].
    rewrite (Hearlier K' chunk' u') in He'; [done|lia|done|done].
Qed.

Lemma insert_json_files_fail_fast_witness :
  ∃ K' chunk' u' e',
    (K' ≤ 1)%nat ∧ [seq 0 20; seq 20 20; seq 40 5] !! K' = Some chunk' ∧
    u' ∈ chunk' ∧
    (if (u' =? 25)%nat then Some (TaskError 1) else None) = Some e' ∧
    head (omap (λ k, if (k =? 25)%nat then Some (TaskError 1) else None) chunk')
    = Some e' ∧
    insert_json_files (λ k, if (k =? 25)%nat then Some (TaskError 1) else None)
      (seq 0 45) []
    = (Raise e', [] ++ concat (take (S K') [seq 0 20; seq 20 20; seq 40 5])) ∧
    ((∀ j cj v, (j < 1)%nat → [seq 0 20; seq 20 20; seq 40 5] !! j = Some cj →
                v ∈ cj →
                (if (v =? 25)%nat then Some (TaskError 1) else None) = None) →
     K' = 1%nat).
Proof.
  apply (insert_json_files_fail_fast
           (λ k, if (k =? 25)%nat then Some (TaskError 1) else None)
           (seq 0 45) [seq 0 20; seq 20 20; seq 40 5] 1 (seq 20 20) 25%nat
           (TaskError 1) []); try reflexivity.
  apply (list_elem_of_lookup_2 _ 5). reflexivity.
Defined.

(** ** [tearDown] in the fast mode *)

(** With [FAST_PERF_TESTS] set, [NUM_ITERATIONS] is 1: a run that
    completes holds one duration, the index of the median is
    [1 * 50 / 100 - 1 = -1], and [tearDown] reports that one duration
    through the wrap-around of the index. *)
Lemma tearDown_fast_mode (d : Z) (s : State) :
  results (self s) = Some [d] →
  percentile_index (Py.sorted [d]) 50 = -1 ∧
  tearDown s = (Return d, s).
Proof.
  intros Hres. split; [reflexivity|].
  unfold tearDown, percentile. by rewrite Hres.
Qed.

(** ** More on [percentile] *)

Lemma sorted_Permutation_eq (S1 S2 : list Z) :
  S1 ≡ₚ S2 → Py.sorted S1 = Py.sorted S2.
Proof.
  intros HS. apply (StronglySorted_unique Z.le);
    [apply sorted_StronglySorted..|].
  by rewrite !sorted_Permutation.
Qed.

Lemma percentile_of_results (self : PerformanceTest) (rs : list Z) (p : Z) :
  results self = Some rs → percentile self p = percentile (with_results rs) p.
Proof. intros Hrs. unfold percentile. simpl. by rewrite Hrs. Qed.

(** X1: the percentile does not depend on the order in which the
    durations were collected: two result lists that are permutations of
    each other give the same outcome, value or exception, for every
    percentile. *)
Theorem percentile_permutation (S1 S2 : list Z) (p : Z) :
  S1 ≡ₚ S2 →
  percentile (with_results S1) p = percentile (with_results S2) p.
Proof.
  intros HS. rewrite !percentile_unfold.
  by rewrite (sorted_Permutation_eq S1 S2 HS).
Qed.

Lemma percentile_permutation_witness :
  percentile (with_results [2; 3; 1]) 50
  = percentile (with_results [3; 1; 2]) 50.
Proof.
  apply (percentile_permutation [2; 3; 1] [3; 1; 2] 50).
  apply (Permutation_cons_append [3; 1] 2).
Defined.

(** X2: above the wrap-around the percentile is monotone: when
    [len * p >= 100] (the index of [p] is not negative) and
    [p <= q <= 100], both percentiles are returned and the one of [p]
    is not larger than the one of [q]. *)
Theorem percentile_monotone (samples : list Z) (p q : Z) :
  100 ≤ Z.of_nat (length samples) * p → p ≤ q ≤ 100 →
  ∃ d1 d2, percentile (with_results samples) p = Return d1 ∧
           percentile (with_results samples) q = Return d2 ∧
           d1 ≤ d2.
Proof.
  intros Hp Hq.
  set (n := Z.of_nat (length samples)) in *.
  assert (0 < n) by nia. assert (0 < p) by nia.
  assert (1 ≤ n * p / 100) as Hip by (apply Z.div_le_lower_bound; lia).
  assert (n * p / 100 ≤ n * q / 100) as Hpq by (apply Z.div_le_mono; nia).
  assert (n * q / 100 ≤ n) as Hiq by (apply Z.div_le_upper_bound; nia).
  subst n.
  destruct (lookup_lt_is_Some_2 (Py.sorted samples) (Z.to_nat (Z.of_nat (length samples) * p / 100 - 1)))
    as [d1 Hd1]; [rewrite sorted_length; lia|].
  destruct (lookup_lt_is_Some_2 (Py.sorted samples) (Z.to_nat (Z.of_nat (length samples) * q / 100 - 1)))
    as [d2 Hd2]; [rewrite sorted_length; lia|].
  exists d1, d2. split_and!.
  - apply percentile_at; rewrite percentile_index_length; [lia|done].
  - apply percentile_at; rewrite percentile_index_length; [lia|done].
  - eapply StronglySorted_lookup_le;
      [apply sorted_StronglySorted| |done..]. lia.
Qed.

Lemma percentile_monotone_witness :
  ∃ d1 d2, percentile (with_results [4; 9; 1; 7]) 50 = Return d1 ∧
           percentile (with_results [4; 9; 1; 7]) 75 = Return d2 ∧
           d1 ≤ d2.
Proof.
  apply (percentile_monotone [4; 9; 1; 7] 50 75); [by vm_compute|lia].
Defined.

(** X3: the value returned is an order statistic.  When
    [len * p >= 100] and [p <= 100], with [i = len * p / 100 - 1] the
    index, the samples split into [i] samples not larger than the
    value returned, the value itself, and [len - 1 - i] samples not
    smaller than it. *)
Theorem percentile_order_statistic (samples : list Z) (p : Z) :
  100 ≤ Z.of_nat (length samples) * p → p ≤ 100 →
  ∃ d lo hi,
    percentile (with_results samples) p = Return d ∧
    samples ≡ₚ lo ++ d :: hi ∧
    Z.of_nat (length lo) = Z.of_nat (length samples) * p / 100 - 1 ∧
    Forall (λ x, x ≤ d) lo ∧
    Forall (λ x, d ≤ x) hi.
Proof.
  intros Hp Hq.
  set (n := Z.of_nat (length samples)) in *.
  assert (0 < n) by nia. assert (0 < p) by nia.
  assert (1 ≤ n * p / 100) as Hip by (apply Z.div_le_lower_bound; lia).
  assert (n * p / 100 ≤ n) as Hiq by (apply Z.div_le_upper_bound; nia).
  subst n.
  remember (Z.to_nat (Z.of_nat (length samples) * p / 100 - 1)) as i eqn:Hi.
  destruct (lookup_lt_is_Some_2 (Py.sorted samples) i) as [d Hd];
    [rewrite sorted_length; lia|].
  pose proof (sorted_StronglySorted samples) as Hs.
  exists d, (take i (Py.sorted samples)), (drop (S i) (Py.sorted samples)).
  split_and!.
  - apply percentile_at; rewrite percentile_index_length; [lia|by rewrite <-Hi].
  - by rewrite take_drop_middle, sorted_Permutation.
  - rewrite length_take, sorted_length. lia.
  - apply Forall_lookup. intros j x Hj.
    apply lookup_take_Some in Hj as [Hj Hlt].
    eapply (StronglySorted_lookup_le _ j i); [done|lia|done..].
  - apply Forall_lookup. intros j x Hj. rewrite lookup_drop in Hj.
    eapply (StronglySorted_lookup_le _ i (S i + j)); [done|lia|done..].
Qed.

Lemma percentile_order_statistic_witness :
  ∃ d lo hi,
    percentile (with_results [4; 9; 1; 7]) 50 = Return d ∧
    [4; 9; 1; 7] ≡ₚ lo ++ d :: hi ∧
    Z.of_nat (length lo) = Z.of_nat (length [4; 9; 1; 7]) * 50 / 100 - 1 ∧
    Forall (λ x, x ≤ d) lo ∧
    Forall (λ x, d ≤ x) hi.
Proof.
  apply (percentile_order_statistic [4; 9; 1; 7] 50); [by vm_compute|lia].
Defined.

(** X4: [percentile] returns a value only from a result list that is
    present and not empty: on an empty result list it raises
    [IndexError] for every percentile, and a value returned is one of
    the results. *)
Theorem percentile_needs_results (self : PerformanceTest) (p : Z) :
  (results self = Some [] → percentile self p = Raise IndexError) ∧
  (∀ d, percentile self p = Return d →
        ∃ rs, results self = Some rs ∧ rs ≠ [] ∧ d ∈ rs).
Proof.
  split.
  - intros Hrs. rewrite (percentile_of_results self [] p Hrs).
    rewrite percentile_unfold. apply getitem_invalid.
    unfold Py.valid_index. rewrite sorted_length. simpl. lia.
  - intros d Hd. destruct (results self) as [rs|] eqn:Hrs.
    + rewrite (percentile_of_results self rs p Hrs) in Hd.
      apply percentile_Return_elem_of in Hd.
      exists rs. split_and!; [done| |done].
      intros ->. by apply elem_of_nil in Hd.
    + unfold percentile in Hd. by rewrite Hrs in Hd.
Qed.

Lemma percentile_needs_results_witness :
  percentile (with_results []) 50 = Raise IndexError ∧
  ∃ rs, results (with_results [7]) = Some rs ∧ rs ≠ [] ∧ 7 ∈ rs.
Proof.
  split.
  - by apply (percentile_needs_results (with_results []) 50).
  - by apply (percentile_needs_results (with_results [7]) 50 ).
Defined.

(** ** More on [Timer] and [runTest] *)

(** X5: the timer is closed whatever the timed body does.  [__exit__]
    reads the clock once after the body, whether the body returns or
    raises; an exception of the body is handed on unchanged, and the
    timer raises nothing of its own. *)
Theorem Timer_always_closes (clock : nat → Z) (body : M unit) (s : State) :
  ∃ r s2,
    body (advance 1 0 0 s) = (r, s2) ∧
    snd (with_Timer clock body s) = advance 1 0 0 s2 ∧
    match r with
    | Return _ =>
        ∃ timer, fst (with_Timer clock body s) = Return timer ∧
                 interval timer = Some (clock (ticks s2) - clock (ticks s))
    | Raise e => fst (with_Timer clock body s) = Raise e
    end.
Proof.
  destruct (body (advance 1 0 0 s)) as [[[]|e] s2] eqn:Hb.
  - exists (Return ()), s2. rewrite (with_Timer_returns clock body s s2 Hb).
    split_and!; [done..|]. eexists. split; reflexivity.
  - exists (Raise e), s2. rewrite (with_Timer_raises clock body s s2 e Hb).
    done.
Qed.

Lemma total_snoc (ds : list Z) (d : Z) : total (ds ++ [d]) = total ds + d.
Proof. unfold total. induction ds as [|x ds IH]; simpl; lia. Qed.

Section loop_facts.
Variables (clock : nat → Z) (before_hook do_task : nat → option exn).
Variable budget : Z.

Implicit Types (s : State) (n k : nat) (rs : list Z).

Lemma iterate_before_raises n start rs s e :
  clock (ticks s) - start ≤ budget →
  before_hook (before_calls s) = Some e →
  iterate clock before_hook do_task budget (S n) start rs s
  = (Raise e, advance 1 1 0 s).
Proof.
  intros Hle Hb. simpl. unfold mbind at 1, M_bind at 1, time at 1.
  rewrite Z.gtb_ltb.
  destruct (Z.ltb_spec budget (clock (ticks s) - start)); [lia|].
  unfold mbind at 1, M_bind at 1, before. simpl. rewrite Hb.
  by rewrite advance_advance.
Qed.

(** One round of the loop, by cases. *)
Lemma iterate_cases n start rs s :
  iterate clock before_hook do_task budget (S n) start rs s
  = if budget <? clock (ticks s) - start then (Return rs, advance 1 0 0 s)
    else match before_hook (before_calls s) with
         | Some e => (Raise e, advance 1 1 0 s)
         | None =>
             match do_task (task_calls s) with
             | Some e => (Raise e, advance 3 1 1 s)
             | None =>
                 iterate clock before_hook do_task budget n start
                   (rs ++ [clock (2 + ticks s)%nat - clock (1 + ticks s)%nat])
                   (advance 3 1 1 s)
             end
         end.
Proof.
  destruct (Z.ltb_spec budget (clock (ticks s) - start)) as [Hlt|Hle].
  - by apply iterate_break.
  - destruct (before_hook (before_calls s)) as [e|] eqn:Hb.
    + by apply iterate_before_raises.
    + destruct (do_task (task_calls s)) as [e|] eqn:Ht.
      * by apply iterate_task_raises.
      * by apply iterate_round.
Qed.

Lemma loop_durations_S u k :
  loop_durations clock u (S k)
  = (clock (2 + u)%nat - clock (1 + u)%nat) :: loop_durations clock (3 + u) k.
Proof.
  unfold loop_durations. simpl seq. rewrite fmap_cons. f_equal.
  rewrite <-fmap_S_seq, <-list_fmap_compose. apply list_fmap_ext.
  intros i j _. simpl. do 2 f_equal; f_equal; lia.
Qed.

Lemma length_loop_durations u k : length (loop_durations clock u k) = k.
Proof. unfold loop_durations. by rewrite length_fmap, length_seq. Qed.

(** [k] rounds in a row whose test passes and whose hooks return. *)
Lemma iterate_rounds k n start rs s :
  (∀ j, (j < k)%nat → clock (3 * j + ticks s)%nat - start ≤ budget) →
  (∀ j, (j < k)%nat → before_hook (j + before_calls s)%nat = None) →
  (∀ j, (j < k)%nat → do_task (j + task_calls s)%nat = None) →
  iterate clock before_hook do_task budget (k + n) start rs s
  = iterate clock before_hook do_task budget n start
      (rs ++ loop_durations clock (ticks s) k) (advance (3 * k) k k s).
Proof.
  revert rs s. induction k as [|k IH]; intros rs s Hc Hb Ht.
  - simpl. rewrite app_nil_r. by destruct s.
  - replace (S k + n)%nat with (S (k + n)) by lia.
    rewrite iterate_round.
    + rewrite IH.
      * rewrite loop_durations_S, <-app_assoc. simpl app.
        rewrite advance_advance. f_equal. f_equal; lia.
      * intros j Hj. specialize (Hc (S j) ltac:(lia)).
        match goal with
        | |- clock ?a - _ ≤ _ =>
            by replace a with (3 * S j + ticks s)%nat by (simpl; lia)
        end.
      * intros j Hj. specialize (Hb (S j) ltac:(lia)).
        match goal with
        | |- before_hook ?a = _ =>
            by replace a with (S j + before_calls s)%nat by (simpl; lia)
        end.
      * intros j Hj. specialize (Ht (S j) ltac:(lia)).
        match goal with
        | |- do_task ?a = _ =>
            by replace a with (S j + task_calls s)%nat by (simpl; lia)
        end.
    + by specialize (Hc 0%nat ltac:(lia)).
    + by specialize (Hb 0%nat ltac:(lia)).
    + by specialize (Ht 0%nat ltac:(lia)).
Qed.

(** What the loop can end with, and what it has done by then: [k]
    counts the rounds that ran to their end. *)
Lemma iterate_outcome n start rs s r s' :
  iterate clock before_hook do_task budget n start rs s = (r, s') →
  self s' = self s ∧
  (ticks s ≤ ticks s' ≤ 3 * n + ticks s)%nat ∧
  ∃ k, (k ≤ n)%nat ∧
    match r with
    | Return rs' =>
        ∃ ds, rs' = rs ++ ds ∧ length ds = k ∧
              task_calls s' = (k + task_calls s)%nat ∧
              before_calls s' = (k + before_calls s)%nat
    | Raise e =>
        (k < n)%nat ∧
        ((before_hook (k + before_calls s)%nat = Some e ∧
          task_calls s' = (k + task_calls s)%nat ∧
          before_calls s' = (S k + before_calls s)%nat) ∨
         (do_task (k + task_calls s)%nat = Some e ∧
          task_calls s' = (S k + task_calls s)%nat ∧
          before_calls s' = (S k + before_calls s)%nat))
    end.
Proof.
  revert rs s. induction n as [|n IH]; intros rs s Hrun.
  - simpl in Hrun. injection Hrun as <- <-.
    split_and!; [done|lia|lia|]. exists 0%nat. split; [lia|].
    exists []. by rewrite app_nil_r.
  - rewrite iterate_cases in Hrun.
    destruct (budget <? clock (ticks s) - start).
    { injection Hrun as <- <-. simpl.
      split_and!; [done|lia|lia|]. exists 0%nat. split; [lia|].
      exists []. by rewrite app_nil_r. }
    destruct (before_hook (before_calls s)) as [e|] eqn:Hb.
    { injection Hrun as <- <-. simpl.
      split_and!; [done|lia|lia|]. exists 0%nat. split; [lia|].
      split; [lia|]. left. done. }
    destruct (do_task (task_calls s)) as [e|] eqn:Ht.
    { injection Hrun as <- <-. simpl.
      split_and!; [done|lia|lia|]. exists 0%nat. split; [lia|].
      split; [lia|]. right. done. }
    apply IH in Hrun as (Hself & Hticks & k & Hk & Hr). simpl in Hself, Hticks.
    split_and!; [done|lia|lia|]. exists (S k). split; [lia|].
    destruct r as [rs'|e].
    + destruct Hr as (ds & -> & Hlen & Htc & Hbc). simpl in Htc, Hbc.
      eexists (_ :: ds). rewrite <-app_assoc. simpl.
      split_and!; [done|lia|lia|lia].
    + destruct Hr as (Hlt & Hr). split; [lia|]. simpl in Hr.
      replace (k + S (before_calls s))%nat with (S k + before_calls s)%nat
        in Hr by lia.
      replace (k + S (task_calls s))%nat with (S k + task_calls s)%nat
        in Hr by lia.
      destruct Hr as [(? & ? & ?)|(? & ? & ?)]; [left|right];
        split_and!; (done || lia).
Qed.

(** With a clock that is never set back: the durations are not
    negative, their sum is at most the time elapsed since [start], and
    the durations before the last one fit in the budget. *)
Lemma iterate_monotone n start rs s rs' s' :
  monotone clock →
  (0 < ticks s)%nat →
  start ≤ clock (pred (ticks s)) →
  Forall (λ d, 0 ≤ d) rs →
  total rs ≤ clock (pred (ticks s)) - start →
  (rs = [] ∨ ∃ rs0 d, rs = rs0 ++ [d] ∧ total rs0 ≤ budget) →
  iterate clock before_hook do_task budget n start rs s = (Return rs', s') →
  Forall (λ d, 0 ≤ d) rs' ∧
  total rs' ≤ clock (pred (ticks s')) - start ∧
  (rs' = [] ∨ ∃ rs0 d, rs' = rs0 ++ [d] ∧ total rs0 ≤ budget).
Proof.
  intros Hmono. revert rs s.
  induction n as [|n IH]; intros rs s Hpos Hstart Hnn Htot Hlast Hrun.
  - simpl in Hrun. by injection Hrun as <- <-.
  - rewrite iterate_cases in Hrun.
    destruct (Z.ltb_spec budget (clock (ticks s) - start)) as [Hlt|Hle].
    { injection Hrun as <- <-. simpl. split_and!; [done| |done].
      pose proof (Hmono (pred (ticks s)) (ticks s) ltac:(lia)). lia. }
    destruct (before_hook (before_calls s)); [done|].
    destruct (do_task (task_calls s)); [done|].
    pose proof (Hmono (pred (ticks s)) (ticks s) ltac:(lia)) as H0.
    pose proof (Hmono (ticks s) (1 + ticks s)%nat ltac:(lia)) as H1.
    pose proof (Hmono (1 + ticks s)%nat (2 + ticks s)%nat ltac:(lia)) as H2.
    simpl in H1, H2.
    apply IH in Hrun; [done|simpl; lia|simpl; lia| | |].
    + apply Forall_app. split; [done|]. apply Forall_singleton. simpl. lia.
    + rewrite total_snoc. simpl. lia.
    + right. eexists _, _. split; [done|]. lia.
Qed.
End loop_facts.

(** Rewrites the number of the clock reading of the goal to [i]. *)
Ltac reindex i :=
  match goal with
  | |- ?c ?a - _ ≤ _ => replace a with i by (simpl; lia)
  | |- _ < ?c ?a - _ => replace a with i by (simpl; lia)
  end.

Section run_facts.
Variables (clock : nat → Z) (before_hook do_task : nat → option exn).
Variables (NUM : nat) (budget : Z).

Implicit Types (s : State) (k : nat).

(** [k] rounds run to their end, and then the loop is over or the
    budget is found spent. *)
Lemma runTest_rounds s k :
  (k ≤ NUM)%nat →
  (∀ j, (j < k)%nat → clock (3 * j + 1 + ticks s)%nat - clock (ticks s) ≤ budget) →
  (k = NUM ∨ budget < clock (3 * k + 1 + ticks s)%nat - clock (ticks s)) →
  (∀ j, (j < k)%nat → before_hook (j + before_calls s)%nat = None) →
  (∀ j, (j < k)%nat → do_task (j + task_calls s)%nat = None) →
  ∃ s', runTest clock before_hook do_task NUM budget s = (Return (), s') ∧
        results (self s') = Some (loop_durations clock (S (ticks s)) k) ∧
        max_iterations (self s') = Some NUM ∧
        task_calls s' = (k + task_calls s)%nat ∧
        before_calls s' = (k + before_calls s)%nat.
Proof.
  intros Hk Hc Hend Hb Ht.
  assert (iterate clock before_hook do_task budget NUM (clock (ticks s)) []
            (loop_entry NUM s)
          = iterate clock before_hook do_task budget (NUM - k) (clock (ticks s))
              (loop_durations clock (S (ticks s)) k)
              (advance (3 * k) k k (loop_entry NUM s))) as Hloop.
  { replace NUM with (k + (NUM - k))%nat at 1 by lia.
    rewrite iterate_rounds; [done| |done|done].
    intros j Hj. specialize (Hc j Hj). by reindex (3 * j + 1 + ticks s)%nat. }
  rewrite runTest_unfold, Hloop.
  destruct (NUM - k)%nat as [|n] eqn:Hn.
  - eexists. split; [reflexivity|]. done.
  - destruct Hend as [?|Hend]; [lia|].
    rewrite iterate_break.
    + eexists. split; [reflexivity|]. done.
    + by reindex (3 * k + 1 + ticks s)%nat.
Qed.

(** X7: the first failure of a hook ends the run.  After [k] full
    rounds, when [before] raises, the exception reaches the caller, the
    task of that round is not called and its timer is not started; when
    [before] returns and the task raises, the exception reaches the
    caller after the timer was closed.  In both cases [before] was
    called [k + 1] times and the [results] attribute is left as it
    was. *)
Theorem runTest_first_hook_failure s k e :
  (k < NUM)%nat →
  (∀ j, (j ≤ k)%nat → clock (3 * j + 1 + ticks s)%nat - clock (ticks s) ≤ budget) →
  (∀ j, (j < k)%nat → before_hook (j + before_calls s)%nat = None) →
  (∀ j, (j < k)%nat → do_task (j + task_calls s)%nat = None) →
  before_hook (k + before_calls s)%nat = Some e ∨
  (before_hook (k + before_calls s)%nat = None ∧
   do_task (k + task_calls s)%nat = Some e) →
  ∃ s', runTest clock before_hook do_task NUM budget s = (Raise e, s') ∧
        results (self s') = results (self s) ∧
        before_calls s' = (S k + before_calls s)%nat ∧
        (before_hook (k + before_calls s)%nat = Some e →
           task_calls s' = (k + task_calls s)%nat ∧
           ticks s' = (3 * k + 2 + ticks s)%nat) ∧
        (before_hook (k + before_calls s)%nat = None →
           task_calls s' = (S k + task_calls s)%nat ∧
           ticks s' = (3 * k + 4 + ticks s)%nat).
Proof.
  intros Hk Hc Hb Ht Hfail.
  assert (iterate clock before_hook do_task budget NUM (clock (ticks s)) []
            (loop_entry NUM s)
          = iterate clock before_hook do_task budget (S (NUM - S k))
              (clock (ticks s)) (loop_durations clock (S (ticks s)) k)
              (advance (3 * k) k k (loop_entry NUM s))) as Hloop.
  { replace NUM with (k + S (NUM - S k))%nat at 1 by lia.
    rewrite iterate_rounds; [done| |done|done].
    intros j Hj. specialize (Hc j ltac:(lia)).
    by reindex (3 * j + 1 + ticks s)%nat. }
  assert (clock (ticks (advance (3 * k) k k (loop_entry NUM s))) - clock (ticks s)
          ≤ budget) as Hck.
  { specialize (Hc k ltac:(lia)). by reindex (3 * k + 1 + ticks s)%nat. }
  rewrite runTest_unfold, Hloop.
  destruct Hfail as [Hbf|[Hbf Htf]].
  - rewrite iterate_before_raises with (e := e); [|done..].
    eexists. split; [reflexivity|]. simpl.
    split_and!; [done|lia| |by rewrite Hbf].
    intros _. split; lia.
  - rewrite iterate_task_raises with (e := e); [|done..].
    eexists. split; [reflexivity|]. simpl.
    split_and!; [done|lia|by rewrite Hbf|].
    intros _. split; lia.
Qed.

(** What a run can end with, whatever the clock and the hooks do. *)
Lemma runTest_outcome s r s' :
  runTest clock before_hook do_task NUM budget s = (r, s') →
  max_iterations (self s') = Some NUM ∧
  (ticks s' ≤ 3 * NUM + 1 + ticks s)%nat ∧
  ∃ k, (k ≤ NUM)%nat ∧
    match r with
    | Return _ =>
        ∃ rs, results (self s') = Some rs ∧ length rs = k ∧
              task_calls s' = (k + task_calls s)%nat ∧
              before_calls s' = (k + before_calls s)%nat
    | Raise e =>
        results (self s') = results (self s) ∧
        (k < NUM)%nat ∧
        ((before_hook (k + before_calls s)%nat = Some e ∧
          task_calls s' = (k + task_calls s)%nat ∧
          before_calls s' = (S k + before_calls s)%nat) ∨
         (do_task (k + task_calls s)%nat = Some e ∧
          task_calls s' = (S k + task_calls s)%nat ∧
          before_calls s' = (S k + before_calls s)%nat))
    end.
Proof.
  rewrite runTest_unfold.
  destruct (iterate clock before_hook do_task budget NUM (clock (ticks s)) []
              (loop_entry NUM s)) as [r0 s0] eqn:Hloop.
  apply iterate_outcome in Hloop as (Hself & Hticks & k & Hk & Hr).
  simpl in Hself, Hticks.
  destruct r0 as [rs|e]; intros [= <- <-]; simpl.
  - split_and!; [by rewrite Hself|lia|]. exists k. split; [done|].
    destruct Hr as (ds & -> & Hlen & Htc & Hbc). exists ds. done.
  - split_and!; [by rewrite Hself|lia|]. exists k. split; [done|].
    rewrite Hself. simpl. done.
Qed.
End run_facts.

(** X6: when the hooks return, the number of durations of a run is the
    number [k] of loop tests passed before the first test that finds
    the budget spent, or [NUM_ITERATIONS] when no test does: the run
    returns with exactly the durations of the first [k] rounds, each
    the difference of the two clock readings around the task, and the
    task is called [k] times. *)
Theorem runTest_duration_count (clock : nat → Z)
    (before_hook do_task : nat → option exn) (NUM : nat) (budget : Z)
    (s : State) (k : nat) :
  (k ≤ NUM)%nat →
  (∀ j, (j < k)%nat → clock (3 * j + 1 + ticks s)%nat - clock (ticks s) ≤ budget) →
  (k = NUM ∨ budget < clock (3 * k + 1 + ticks s)%nat - clock (ticks s)) →
  (∀ j, (j < k)%nat → before_hook (j + before_calls s)%nat = None) →
  (∀ j, (j < k)%nat → do_task (j + task_calls s)%nat = None) →
  ∃ s' rs,
    runTest clock before_hook do_task NUM budget s = (Return (), s') ∧
    results (self s') = Some rs ∧
    length rs = k ∧
    (∀ j, (j < k)%nat →
       rs !! j = Some (clock (3 * j + 3 + ticks s)%nat
                       - clock (3 * j + 2 + ticks s)%nat)) ∧
    task_calls s' = (k + task_calls s)%nat.
Proof.
  intros Hk Hc Hend Hb Ht.
  destruct (runTest_rounds clock before_hook do_task NUM budget s k
              Hk Hc Hend Hb Ht) as (s' & Hrun & Hres & _ & Htc & _).
  exists s', (loop_durations clock (S (ticks s)) k).
  split_and!; [done|done|apply length_loop_durations| |done].
  intros j Hj. unfold loop_durations.
  rewrite list_lookup_fmap, lookup_seq_lt by done. simpl.
  do 2 f_equal; f_equal; lia.
Qed.

Lemma runTest_duration_count_witness :
  ∃ s' rs,
    runTest ticking_clock (λ _, None) (λ _, None) 5 7 initial_state
    = (Return (), s') ∧
    results (self s') = Some rs ∧
    length rs = 3%nat ∧
    (∀ j, (j < 3)%nat →
       rs !! j = Some (ticking_clock (3 * j + 3 + ticks initial_state)%nat
                       - ticking_clock (3 * j + 2 + ticks initial_state)%nat)) ∧
    task_calls s' = (3 + task_calls initial_state)%nat.
Proof.
  apply (runTest_duration_count ticking_clock (λ _, None) (λ _, None) 5 7
           initial_state 3); try done.
  - lia.
  - intros j Hj. unfold ticking_clock. simpl ticks. lia.
  - right. by vm_compute.
Defined.

Lemma runTest_first_hook_failure_witness :
  ∃ s', runTest ticking_clock fails_on_third_call (λ _, None) 10 300
          initial_state = (Raise (TaskError 3), s') ∧
        results (self s') = results (self initial_state) ∧
        before_calls s' = (3 + before_calls initial_state)%nat ∧
        (fails_on_third_call (2 + before_calls initial_state)%nat
         = Some (TaskError 3) →
           task_calls s' = (2 + task_calls initial_state)%nat ∧
           ticks s' = (3 * 2 + 2 + ticks initial_state)%nat) ∧
        (fails_on_third_call (2 + before_calls initial_state)%nat = None →
           task_calls s' = (3 + task_calls initial_state)%nat ∧
           ticks s' = (3 * 2 + 4 + ticks initial_state)%nat).
Proof.
  apply (runTest_first_hook_failure ticking_clock fails_on_third_call
           (λ _, None) 10 300 initial_state 2 (TaskError 3)); try done.
  - lia.
  - intros j Hj. unfold ticking_clock. simpl ticks. lia.
  - intros j Hj. simpl. unfold fails_on_third_call.
    destruct (Nat.eqb_spec (j + 0) 2); [lia|done].
  - by left.
Defined.

(** X8: the accounts of a run, whatever the clock and the hooks do.
    [max_iterations] is set; at most [3 * NUM_ITERATIONS + 1] clock
    readings are taken.  A run that returns has stored as many
    durations as it made calls of the task and of [before], at most
    [NUM_ITERATIONS].  A run that raises hands on an exception raised
    by [before] or by the task (it raises none of its own), after
    fewer than [NUM_ITERATIONS] full rounds, never calls the task
    without having called [before], and leaves the [results] attribute
    as it was. *)
Theorem runTest_accounting (clock : nat → Z)
    (before_hook do_task : nat → option exn) (NUM : nat) (budget : Z)
    (s : State) :
  let '(r, s') := runTest clock before_hook do_task NUM budget s in
  max_iterations (self s') = Some NUM ∧
  (ticks s' ≤ 3 * NUM + 1 + ticks s)%nat ∧
  ∃ k, (k ≤ NUM)%nat ∧
    match r with
    | Return _ =>
        ∃ rs, results (self s') = Some rs ∧ length rs = k ∧
              task_calls s' = (k + task_calls s)%nat ∧
              before_calls s' = (k + before_calls s)%nat
    | Raise e =>
        results (self s') = results (self s) ∧
        (k < NUM)%nat ∧
        ((before_hook (k + before_calls s)%nat = Some e ∧
          task_calls s' = (k + task_calls s)%nat ∧
          before_calls s' = (S k + before_calls s)%nat) ∨
         (do_task (k + task_calls s)%nat = Some e ∧
          task_calls s' = (S k + task_calls s)%nat ∧
          before_calls s' = (S k + before_calls s)%nat))
    end.
Proof.
  destruct (runTest clock before_hook do_task NUM budget s) as [r s'] eqn:Hrun.
  by apply (runTest_outcome clock before_hook do_task NUM budget s).
Qed.

(** X9: with a clock that is never set back, a run that returns has
    only durations that are not negative; their sum is at most the
    time between the reading of [start] and the last reading of the
    run; and the durations before the last one sum to at most the
    budget: the run exceeds its budget by no more than the one
    iteration that was under way. *)
Theorem runTest_monotone_clock (clock : nat → Z)
    (before_hook do_task : nat → option exn) (NUM : nat) (budget : Z)
    (s s' : State) :
  monotone clock →
  runTest clock before_hook do_task NUM budget s = (Return (), s') →
  ∃ rs, results (self s') = Some rs ∧
        Forall (λ d, 0 ≤ d) rs ∧
        total rs ≤ clock (pred (ticks s')) - clock (ticks s) ∧
        (rs = [] ∨ ∃ rs0 d, rs = rs0 ++ [d] ∧ total rs0 ≤ budget).
Proof.
  intros Hmono. rewrite runTest_unfold.
  destruct (iterate clock before_hook do_task budget NUM (clock (ticks s)) []
              (loop_entry NUM s)) as [[rs|e] s0] eqn:Hloop; [|done].
  intros [= <-]. simpl.
  apply iterate_monotone in Hloop; [|done|simpl; lia|simpl; lia|done| |by left].
  - exists rs. by destruct Hloop as (? & ? & ?).
  - simpl. lia.
Qed.

Lemma runTest_monotone_clock_witness :
  ∃ rs, results (self (snd (runTest ticking_clock (λ _, None) (λ _, None) 5 4
                              initial_state))) = Some rs ∧
        Forall (λ d, 0 ≤ d) rs ∧
        total rs
        ≤ ticking_clock (pred (ticks (snd (runTest ticking_clock (λ _, None)
                                             (λ _, None) 5 4 initial_state))))
          - ticking_clock (ticks initial_state) ∧
        (rs = [] ∨ ∃ rs0 d, rs = rs0 ++ [d] ∧ total rs0 ≤ 4).
Proof.
  apply (runTest_monotone_clock ticking_clock (λ _, None) (λ _, None) 5 4
           initial_state).
  - intros i j Hij. unfold ticking_clock. lia.
  - reflexivity.
Defined.

(** ** A run followed by [tearDown] *)

(** X10: a full run followed by [tearDown].  When none of the
    [NUM_ITERATIONS] loop tests finds the budget spent and the hooks
    return, [runTest] returns and [tearDown] reports a duration: in the
    fast mode (one iteration) the only duration measured, through index
    -1; in the normal mode (100 iterations) the element at index 49 of
    the sorted durations, the 50th smallest. *)
Theorem run_then_tearDown (environ : gmap string string) (ticks_per_second : Z)
    (clock : nat → Z) (before_hook do_task : nat → option exn) (s : State) :
  let NUM := NUM_ITERATIONS environ in
  let budget := MAX_ITERATION_TIME environ * ticks_per_second in
  (∀ j, (j < NUM)%nat → clock (3 * j + 1 + ticks s)%nat - clock (ticks s) ≤ budget) →
  (∀ j, (j < NUM)%nat → before_hook (j + before_calls s)%nat = None) →
  (∀ j, (j < NUM)%nat → do_task (j + task_calls s)%nat = None) →
  ∃ s' d ds,
    runTest clock before_hook do_task NUM budget s = (Return (), s') ∧
    results (self s') = Some ds ∧
    tearDown s' = (Return d, s') ∧
    (fast_perf_tests environ = true →
       ds = [clock (3 + ticks s)%nat - clock (2 + ticks s)%nat] ∧ ds = [d]) ∧
    (fast_perf_tests environ = false →
       length ds = 100%nat ∧ Py.sorted ds !! 49%nat = Some d).
Proof.
  intros NUM budget Hc Hb Ht.
  destruct (runTest_rounds clock before_hook do_task NUM budget s NUM
              (le_n NUM) Hc (or_introl eq_refl) Hb Ht)
    as (s' & Hrun & Hres & _).
  pose proof (length_loop_durations clock (S (ticks s)) NUM) as Hlen.
  set (ds := loop_durations clock (S (ticks s)) NUM) in *.
  subst NUM. unfold NUM_ITERATIONS in Hlen, ds.
  assert (tearDown s' = (percentile (with_results ds) 50, s')) as Htd
    by (unfold tearDown; by rewrite (percentile_of_results _ ds 50 Hres)).
  destruct (fast_perf_tests environ).
  - exists s', (clock (3 + ticks s)%nat - clock (2 + ticks s)%nat), ds.
    split_and!; [done|done|by rewrite Htd|done|done].
  - destruct (lookup_lt_is_Some_2 (Py.sorted ds) 49) as [d Hd];
      [rewrite sorted_length; lia|].
    exists s', d, ds. split_and!; [done|done| |done|done].
    rewrite Htd. f_equal. apply percentile_at.
    + rewrite percentile_index_length, Hlen. by vm_compute.
    + rewrite percentile_index_length, Hlen. exact Hd.
Qed.

Lemma run_then_tearDown_witness :
  ∃ s' d ds,
    runTest ticking_clock (λ _, None) (λ _, None) (NUM_ITERATIONS ∅)
      (MAX_ITERATION_TIME ∅ * 1) initial_state = (Return (), s') ∧
    results (self s') = Some ds ∧
    tearDown s' = (Return d, s') ∧
    (fast_perf_tests ∅ = true →
       ds = [ticking_clock (3 + ticks initial_state)%nat
             - ticking_clock (2 + ticks initial_state)%nat] ∧ ds = [d]) ∧
    (fast_perf_tests ∅ = false →
       length ds = 100%nat ∧ Py.sorted ds !! 49%nat = Some d).
Proof.
  apply (run_then_tearDown ∅ 1 ticking_clock (λ _, None) (λ _, None)
           initial_state); try done.
  intros j Hj. change (NUM_ITERATIONS ∅) with 100%nat in Hj.
  change (MAX_ITERATION_TIME ∅ * 1) with 300.
  unfold ticking_clock. simpl ticks. lia.
Defined.

(** X11: a run can return without any duration, and [tearDown] then
    fails.  When the first loop test already finds the budget spent,
    [runTest] returns with an empty result list, and the percentile of
    [tearDown] raises [IndexError]. *)
Theorem empty_run_breaks_tearDown (clock : nat → Z)
    (before_hook do_task : nat → option exn) (NUM : nat) (budget : Z)
    (s : State) :
  (0 < NUM)%nat →
  budget < clock (S (ticks s)) - clock (ticks s) →
  ∃ s', runTest clock before_hook do_task NUM budget s = (Return (), s') ∧
        results (self s') = Some [] ∧
        tearDown s' = (Raise IndexError, s').
Proof.
  intros HNUM Hspent. destruct NUM as [|n]; [lia|].
  destruct (runTest_budget_spent_at_entry clock before_hook do_task n budget s
              Hspent) as (s' & Hrun & Hres & _).
  exists s'. split_and!; [done..|].
  unfold tearDown. by rewrite (percentile_of_results _ [] 50 Hres).
Qed.

Lemma empty_run_breaks_tearDown_witness :
  ∃ s', runTest ticking_clock (λ _, None) (λ _, None) 100 0 initial_state
        = (Return (), s') ∧
        results (self s') = Some [] ∧
        tearDown s' = (Raise IndexError, s').
Proof.
  apply (empty_run_breaks_tearDown ticking_clock (λ _, None) (λ _, None) 100 0
           initial_state); [lia|reflexivity].
Defined.

(** ** More on [chunks] and the batches *)

Section more_batch_facts.
Context {A : Type}.
Implicit Types (l files chunk started : list A) (cs : list (list A)).

Lemma chunks_negative l (n : Z) : n < 0 → chunks l n = Return [].
Proof.
  intros Hn. unfold chunks, Py.range.
  destruct (Z.eqb_spec n 0) as [?|_]; [lia|].
  destruct (Z.ltb_spec 0 n) as [?|_]; [lia|].
  assert ((0 - Z.of_nat (length l) - n - 1) / - n < 1) as Hcount
    by (apply Z.div_lt_upper_bound; lia).
  replace (Z.to_nat ((0 - Z.of_nat (length l) - n - 1) / - n)) with 0%nat by lia.
  done.
Qed.

Lemma chunk_count_positive len n :
  (0 < n)%nat → (chunk_count len n = 0%nat ↔ len = 0%nat).
Proof.
  intros Hn. pose proof (chunk_count_bounds len n Hn) as (Hcover & _ & Hlast).
  split.
  - intros H0. rewrite H0 in Hcover. lia.
  - intros ->. destruct (chunk_count 0 n) as [|k] eqn:Hk; [done|].
    specialize (Hlast k eq_refl). lia.
Qed.

Lemma concat_take_nth_chunks l n c m :
  concat (take m (nth_chunk l n <$> seq 0 c)) = take ((m `min` c) * n) l.
Proof.
  by rewrite <-fmap_take, take_seq, concat_nth_chunks.
Qed.

(** The outcome of the loop over the chunks is that of one [gen.multi]
    over all the units; the units started are those of the first [m]
    chunks, all of them when the loop returns. *)
Lemma for_chunks_outcome (f : A → option exn) cs started :
  ∃ m, (m ≤ length cs)%nat ∧
       for_chunks f cs started
       = (match head (omap f (concat cs)) with
          | None => Return ()
          | Some e => Raise e
          end, started ++ concat (take m cs)) ∧
       (head (omap f (concat cs)) = None → m = length cs).
Proof.
  revert started. induction cs as [|c cs IH]; intros started.
  - exists 0%nat. simpl. by rewrite app_nil_r.
  - simpl concat. rewrite omap_app, head_app. cbn [for_chunks]. unfold multi.
    destruct (head (omap f c)) as [e|] eqn:Hc.
    + exists 1%nat. simpl. rewrite app_nil_r. split_and!; [lia|done|done].
    + destruct (IH (started ++ c)) as (m & Hm & Hrun & Hall).
      exists (S m). simpl. rewrite Hrun, <-app_assoc.
      split_and!; [lia|done|]. intros H. by rewrite Hall.
Qed.
End more_batch_facts.

(** X12: a chunk size that is not positive.  For chunk size 0 [chunks]
    raises [ValueError]; for a negative chunk size it yields no chunk
    at all, so the elements of the list are dropped without an error. *)
Theorem chunks_nonpositive {A} (l : list A) (n : Z) :
  (n = 0 → chunks l n = Raise ValueError) ∧
  (n < 0 → chunks l n = Return []).
Proof.
  split.
  - intros ->. reflexivity.
  - apply chunks_negative.
Qed.

Lemma chunks_nonpositive_witness :
  chunks [1; 2; 3] 0 = Raise ValueError ∧ chunks [1; 2; 3] (-2) = Return [].
Proof.
  split.
  - by apply (chunks_nonpositive [1; 2; 3] 0).
  - by apply (chunks_nonpositive [1; 2; 3] (-2)).
Defined.

Lemma chunks_shape {A} (l : list A) (n : Z) :
  0 < n →
  ∃ cs, chunks l n = Return cs ∧
        Z.of_nat (length cs) = (Z.of_nat (length l) + n - 1) / n ∧
        Forall (λ chunk, chunk ≠ []) cs ∧
        (l = [] → cs = []) ∧
        (l ≠ [] → Z.of_nat (length l) ≤ n → cs = [l]).
Proof.
  intros Hn.
  assert (n = Z.of_nat (Z.to_nat n)) as Hn' by lia.
  set (m := Z.to_nat n) in *. assert (0 < m)%nat as Hm by lia.
  clearbody m. subst n.
  pose proof (chunk_count_bounds (length l) m Hm) as (Hcover & Hfull & Hlast).
  pose proof (chunk_count_positive (length l) m Hm) as Hzero.
  assert (0 ≤ (Z.of_nat (length l) + Z.of_nat m - 1) / Z.of_nat m) as Hq
    by (apply Z.div_pos; lia).
  exists (nth_chunk l m <$> seq 0 (chunk_count (length l) m)).
  split_and!.
  - by apply chunks_positive.
  - rewrite length_fmap, length_seq. unfold chunk_count. lia.
  - apply Forall_fmap, Forall_seq. intros k [_ Hk]. simpl.
    intros Hnil. apply (f_equal length) in Hnil.
    rewrite length_nth_chunk in Hnil. simpl in Hnil.
    destruct (decide (S k = chunk_count (length l) m)) as [Heq|Hne].
    + specialize (Hlast k Heq). lia.
    + specialize (Hfull k ltac:(lia)). lia.
  - intros ->. destruct Hzero as [_ ->]; done.
  - intros Hl Hlen.
    assert (chunk_count (length l) m = 1%nat) as ->.
    { destruct (chunk_count (length l) m) as [|[|c]] eqn:Hc; [|done|].
      - destruct Hzero as [Hz _]. specialize (Hz eq_refl). by destruct l.
      - specialize (Hfull 0%nat ltac:(lia)). specialize (Hlast (S c) eq_refl).
        nia. }
    simpl. unfold nth_chunk. simpl. f_equal. apply take_ge. lia.
Qed.

(** X13: the number of chunks.  For a positive chunk size [n], a list
    of [len] elements gives [(len + n - 1) / n] chunks, none of them
    empty: no chunk for the empty list, and the list itself as the only
    chunk when it has at most [n] elements. *)
Theorem chunks_count {A} (l : list A) (n : Z) :
  0 < n →
  ∃ cs, chunks l n = Return cs ∧
        Z.of_nat (length cs) = (Z.of_nat (length l) + n - 1) / n ∧
        Forall (λ chunk, chunk ≠ []) cs ∧
        (l = [] → cs = []) ∧
        (l ≠ [] → Z.of_nat (length l) ≤ n → cs = [l]).
Proof. apply chunks_shape. Qed.

Lemma chunks_count_witness :
  ∃ cs, chunks [1; 2; 3] 20 = Return cs ∧
        Z.of_nat (length cs) = (Z.of_nat (length [1; 2; 3]) + 20 - 1) / 20 ∧
        Forall (λ chunk, chunk ≠ []) cs ∧
        ([1; 2; 3] = [] → cs = []) ∧
        ([1; 2; 3] ≠ [] → Z.of_nat (length [1; 2; 3]) ≤ 20 → cs = [[1; 2; 3]]).
Proof. apply (chunks_count [1; 2; 3] 20). lia. Defined.

(** X14: chunking changes what is started, not the outcome.
    [insert_json_files] returns when one [gen.multi] over all the files
    would return, and raises the exception it would raise: the first
    failure in the order of the files.  The units it starts are a
    prefix of the files made of whole chunks of 20, which is the whole
    list when it returns; the files after that prefix are not
    started. *)
Theorem insert_json_files_vs_multi {A} (insert_json_file : A → option exn)
    (files started : list A) :
  fst (insert_json_files insert_json_file files started)
  = fst (multi insert_json_file files started) ∧
  ∃ m : nat,
    snd (insert_json_files insert_json_file files started)
    = started ++ take (m * 20) files ∧
    (fst (insert_json_files insert_json_file files started) = Return () →
     take (m * 20) files = files).
Proof.
  unfold insert_json_files.
  change (chunks files 20) with (chunks files (Z.of_nat 20)).
  rewrite (chunks_positive files 20) by lia.
  set (c := chunk_count (length files) 20).
  assert (concat (nth_chunk files 20 <$> seq 0 c) = files) as Hconcat.
  { rewrite concat_nth_chunks. apply take_ge.
    pose proof (chunk_count_bounds (length files) 20 ltac:(lia)). lia. }
  destruct (for_chunks_outcome insert_json_file
              (nth_chunk files 20 <$> seq 0 c) started)
    as (m & Hm & Hrun & Hall).
  rewrite Hconcat in Hrun, Hall. rewrite Hrun. simpl. split; [done|].
  exists (m `min` c)%nat. rewrite concat_take_nth_chunks. split; [done|].
  intros Hret. rewrite Hall.
  - rewrite length_fmap, length_seq, Nat.min_id.
    by rewrite <-concat_nth_chunks.
  - by destruct (head (omap insert_json_file files)).
Qed.

Lemma insert_json_files_vs_multi_witness :
  fst (insert_json_files
         (λ k, if (k =? 25)%nat then Some (TaskError 1) else None) (seq 0 45) [])
  = fst (multi (λ k, if (k =? 25)%nat then Some (TaskError 1) else None)
           (seq 0 45) []) ∧
  ∃ m : nat,
    snd (insert_json_files
           (λ k, if (k =? 25)%nat then Some (TaskError 1) else None)
           (seq 0 45) [])
    = [] ++ take (m * 20) (seq 0 45) ∧
    (fst (insert_json_files
            (λ k, if (k =? 25)%nat then Some (TaskError 1) else None)
            (seq 0 45) []) = Return () →
     take (m * 20) (seq 0 45) = seq 0 45).
Proof.
  apply (insert_json_files_vs_multi
           (λ k, if (k =? 25)%nat then Some (TaskError 1) else None)
           (seq 0 45) []).
Defined.

Lemma runTest_accounting_witness :
  let '(r, s') := runTest ticking_clock (λ _, None) fails_on_third_call 10 300
                    initial_state in
  max_iterations (self s') = Some 10%nat ∧
  (ticks s' ≤ 3 * 10 + 1 + ticks initial_state)%nat ∧
  ∃ k, (k ≤ 10)%nat ∧
    match r with
    | Return _ =>
        ∃ rs, results (self s') = Some rs ∧ length rs = k ∧
              task_calls s' = (k + task_calls initial_state)%nat ∧
              before_calls s' = (k + before_calls initial_state)%nat
    | Raise e =>
        results (self s') = results (self initial_state) ∧
        (k < 10)%nat ∧
        (((λ _ : nat, @None exn) (k + before_calls initial_state)%nat = Some e ∧
          task_calls s' = (k + task_calls initial_state)%nat ∧
          before_calls s' = (S k + before_calls initial_state)%nat) ∨
         (fails_on_third_call (k + task_calls initial_state)%nat = Some e ∧
          task_calls s' = (S k + task_calls initial_state)%nat ∧
          before_calls s' = (S k + before_calls initial_state)%nat))
    end.
Proof.
  apply (runTest_accounting ticking_clock (λ _, None) fails_on_third_call 10 300
           initial_state).
Defined.

(** ** The tasks of the scenarios *)

Section task_facts.
Context {X : Type} (op : X → option exn).
Implicit Types (xs pre post issued : list X).

Lemma for_yield_app pre xs issued :
  (∀ y, y ∈ pre → op y = None) →
  for_yield op (pre ++ xs) issued = for_yield op xs (issued ++ pre).
Proof.
  revert issued. induction pre as [|y pre IH]; intros issued Hok.
  - simpl. by rewrite app_nil_r.
  - simpl. rewrite (Hok y) by left. rewrite IH.
    + by rewrite <-app_assoc.
    + intros z Hz. apply Hok. by right.
Qed.

Lemma for_yield_ok xs issued :
  (∀ y, y ∈ xs → op y = None) →
  for_yield op xs issued = (Return (), issued ++ xs).
Proof.
  intros Hok. rewrite <-(app_nil_r xs) at 1. by rewrite for_yield_app.
Qed.

Lemma for_yield_fails pre x post issued e :
  (∀ y, y ∈ pre → op y = None) → op x = Some e →
  for_yield op (pre ++ x :: post) issued = (Raise e, issued ++ pre ++ [x]).
Proof.
  intros Hok He. rewrite for_yield_app by done. simpl. rewrite He.
  by rewrite <-app_assoc.
Qed.

Lemma head_omap_ok pre xs :
  (∀ y, y ∈ pre → op y = None) →
  head (omap op (pre ++ xs)) = head (omap op xs).
Proof. intros Hok. by rewrite omap_app, omap_all_None. Qed.
End task_facts.

(** X15: the sequential tasks against the concurrent ones.  The loop
    [for x in xs: yield op(x)] of the single-document tasks and one
    [gen.multi] over the same operations end alike: both return when
    every operation succeeds, and both raise the first failure in the
    order of the list.  They differ in what is issued before a failure:
    the loop issues the operations up to the failing one and none after
    it, [gen.multi] starts them all. *)
Theorem for_yield_stops_at_first_failure {X} (op : X → option exn)
    (pre post issued : list X) (x : X) (e : exn) :
  (∀ y, y ∈ pre → op y = None) → op x = Some e →
  TestFindOneByID_do_task op (pre ++ x :: post) issued
  = (Raise e, issued ++ pre ++ [x]) ∧
  TestGridFsMultiFileUpload_do_task op (pre ++ x :: post) issued
  = (Raise e, issued ++ pre ++ x :: post).
Proof.
  intros Hok He. split.
  - by apply for_yield_fails.
  - unfold TestGridFsMultiFileUpload_do_task, multi.
    rewrite head_omap_ok by done. simpl. by rewrite He.
Qed.

Lemma for_yield_stops_at_first_failure_witness :
  TestFindOneByID_do_task fails_on_third_call ([0; 1] ++ 2 :: [3; 4])%nat []
  = (Raise (TaskError 3), [] ++ [0; 1] ++ [2])%nat ∧
  TestGridFsMultiFileUpload_do_task fails_on_third_call
    ([0; 1] ++ 2 :: [3; 4])%nat []
  = (Raise (TaskError 3), [] ++ [0; 1] ++ 2 :: [3; 4])%nat.
Proof.
  apply (for_yield_stops_at_first_failure fails_on_third_call
           [0; 1]%nat [3; 4]%nat [] 2%nat (TaskError 3)); [|done].
  intros y Hy. apply list_elem_of_In in Hy. simpl in Hy.
  by destruct Hy as [<-|[<-|[]]].
Defined.

Lemma range_from_zero (n : Z) :
  Py.range 0 n 1 = Return (Z.of_nat <$> seq 0 (Z.to_nat n)).
Proof.
  unfold Py.range. simpl. rewrite Z.div_1_r.
  replace (n - 0 + 1 - 1) with n by lia. f_equal.
  apply list_fmap_ext. intros i k _. lia.
Qed.

(** X16: [TestRunCommand.do_task] issues its commands one after the
    other.  When the commands of the rounds before round [i] succeed:
    if [i] is [NUM_DOCS] (or 0 for a negative [NUM_DOCS]) the task
    returns after exactly [i] commands; if round [i] is a round of the
    loop and its command fails, the task raises that failure after
    exactly [i + 1] commands. *)
Theorem TestRunCommand_commands (command : Z → option exn) (NUM_DOCS : Z)
    (issued : list Z) (i : nat) :
  (∀ j, (j < i)%nat → command (Z.of_nat j) = None) →
  (Z.of_nat i = Z.max 0 NUM_DOCS →
     TestRunCommand_do_task command NUM_DOCS issued
     = (Return (), issued ++ (Z.of_nat <$> seq 0 i))) ∧
  (∀ e, Z.of_nat i < NUM_DOCS → command (Z.of_nat i) = Some e →
     TestRunCommand_do_task command NUM_DOCS issued
     = (Raise e, issued ++ (Z.of_nat <$> seq 0 (S i)))).
Proof.
  intros Hok. unfold TestRunCommand_do_task. rewrite range_from_zero.
  assert (∀ y, y ∈ Z.of_nat <$> seq 0 i → command y = None) as Hpre.
  { intros y (j & -> & Hj)%list_elem_of_fmap.
    apply elem_of_seq in Hj. apply Hok. lia. }
  split.
  - intros Hi. replace (Z.to_nat NUM_DOCS) with i by lia.
    by apply for_yield_ok.
  - intros e Hi He.
    replace (Z.to_nat NUM_DOCS) with (i + S (Z.to_nat NUM_DOCS - S i))%nat by lia.
    rewrite (seq_S i 0), !fmap_app, seq_app, fmap_app.
    change (seq (0 + i) (S (Z.to_nat NUM_DOCS - S i)))
      with ((0 + i)%nat :: seq (S (0 + i)) (Z.to_nat NUM_DOCS - S i)).
    rewrite fmap_cons.
    by rewrite (for_yield_fails command _ _ _ issued e Hpre He).
Qed.

Lemma TestRunCommand_commands_witness :
  (Z.of_nat 2 = Z.max 0 10 →
     TestRunCommand_do_task (λ i, if i =? 2 then Some (TaskError 5) else None)
       10 []
     = (Return (), [] ++ (Z.of_nat <$> seq 0 2))) ∧
  (∀ e, Z.of_nat 2 < 10 →
     (if Z.of_nat 2 =? 2 then Some (TaskError 5) else None) = Some e →
     TestRunCommand_do_task (λ i, if i =? 2 then Some (TaskError 5) else None)
       10 []
     = (Raise e, [] ++ (Z.of_nat <$> seq 0 3))).
Proof.
  apply (TestRunCommand_commands
           (λ i, if i =? 2 then Some (TaskError 5) else None) 10 [] 2).
  intros j Hj. destruct (Z.eqb_spec (Z.of_nat j) 2); [lia|done].
Defined.

(** [l[:k]] is the first [k] elements of [l]. *)
Lemma slice_prefix {A} (l : list A) (k : nat) :
  Py.slice l 0 (Z.of_nat k) = take k l.
Proof.
  unfold Py.slice.
  destruct (Z.ltb_spec 0 0) as [?|_]; [lia|].
  destruct (Z.ltb_spec (Z.of_nat k) 0) as [?|_]; [lia|].
  replace (Z.to_nat (Z.min 0 (Z.of_nat (length l)))) with 0%nat by lia.
  simpl drop.
  destruct (decide (k ≤ length l)%nat).
  - f_equal. lia.
  - rewrite (take_ge l k) by lia. apply take_ge. lia.
Qed.

(** X17: [TestJsonMultiImport] in the fast mode.  The files are cut to
    the first 10 of the directory listing, which fit in one chunk of
    20: [insert_json_files] starts every one of them in a single
    [gen.multi], whether or not one of them fails, and ends with the
    first failure in the order of the files, if any. *)
Theorem TestJsonMultiImport_fast_mode {A} (insert_json_file : A → option exn)
    (listing started : list A) :
  let files := TestJsonMultiImport_files true listing in
  files = take 10 listing ∧
  (length files ≤ 10)%nat ∧
  insert_json_files insert_json_file files started
  = (match head (omap insert_json_file files) with
     | None => Return ()
     | Some e => Raise e
     end, started ++ files).
Proof.
  intros files.
  assert (files = take 10 listing) as Hfiles
    by apply (slice_prefix listing 10).
  assert (length files ≤ 10)%nat as Hlen
    by (rewrite Hfiles, length_take; lia).
  split_and!; [done..|].
  destruct (chunks_shape files 20 ltac:(lia)) as (cs & Hcs & _ & _ & Hnil & Hone).
  unfold insert_json_files. rewrite Hcs.
  destruct (decide (files = [])) as [Hempty|Hne].
  - rewrite (Hnil Hempty), Hempty. simpl. by rewrite app_nil_r.
  - rewrite (Hone Hne ltac:(lia)). simpl. unfold multi.
    by destruct (head (omap insert_json_file files)).
Qed.

(** X18: [tearDown] after a run that failed.  When [runTest] raises,
    the percentile [tearDown] asks for is computed from the [results]
    attribute as it was before the run: on a test object that had no
    results, [tearDown] fails with "Test execution failed", and no
    percentile of the durations measured before the failure is
    reported. *)
Theorem tearDown_after_failed_run (clock : nat → Z)
    (before_hook do_task : nat → option exn) (NUM : nat) (budget : Z)
    (s s' : State) (e : exn) :
  runTest clock before_hook do_task NUM budget s = (Raise e, s') →
  tearDown s' = (percentile (self s) 50, s') ∧
  (results (self s) = None →
   tearDown s' = (Raise (AssertionError "Test execution failed"), s')).
Proof.
  intros Hrun.
  apply runTest_outcome in Hrun as (_ & _ & k & _ & Hres & _).
  assert (tearDown s' = (percentile (self s) 50, s')) as Htd.
  { unfold tearDown, percentile. by rewrite Hres. }
  split; [done|]. intros Hnone. rewrite Htd. unfold percentile.
  by rewrite Hnone.
Qed.

Lemma tearDown_after_failed_run_witness :
  tearDown (snd (runTest ticking_clock (λ _, None) fails_on_third_call 10 300
                   initial_state))
  = (percentile (self initial_state) 50,
     snd (runTest ticking_clock (λ _, None) fails_on_third_call 10 300
            initial_state)) ∧
  (results (self initial_state) = None →
   tearDown (snd (runTest ticking_clock (λ _, None) fails_on_third_call 10 300
                    initial_state))
   = (Raise (AssertionError "Test execution failed"),
      snd (runTest ticking_clock (λ _, None) fails_on_third_call 10 300
             initial_state))).
Proof.
  apply (tearDown_after_failed_run ticking_clock (λ _, None) fails_on_third_call
           10 300 initial_state _ (TaskError 3)).
  reflexivity.
Defined.

(** ** [insert_json_file] *)

Section json_file_facts.
Context {Doc : Type}.
Variable open_file : string → result (list string).
Variable strip : string → string.
Variable json_loads : string → result Doc.
Variable collection_insert : list Doc → option exn.

Implicit Types (lines pre post : list string) (docs documents : list Doc).

Lemma load_lines_ok lines docs documents :
  Forall2 (λ line doc, json_loads (strip line) = Return doc) lines docs →
  load_lines strip json_loads lines documents = Return (documents ++ docs).
Proof.
  intros Hparse. revert documents.
  induction Hparse as [|line doc lines docs Hline _ IH]; intros documents.
  - simpl. by rewrite app_nil_r.
  - simpl. rewrite Hline, IH. by rewrite <-app_assoc.
Qed.

Lemma load_lines_fails pre line post docs documents e :
  Forall2 (λ line doc, json_loads (strip line) = Return doc) pre docs →
  json_loads (strip line) = Raise e →
  load_lines strip json_loads (pre ++ line :: post) documents = Raise e.
Proof.
  intros Hparse Hline. revert documents.
  induction Hparse as [|l doc pre docs Hl _ IH]; intros documents.
  - simpl. by rewrite Hline.
  - simpl. by rewrite Hl, IH.
Qed.
End json_file_facts.

(** X19: [insert_json_file] inserts all the documents of a file or
    none.  When every line parses, [collection.insert] is called
    exactly once, with the documents of the lines in the order of the
    file, and its outcome is the outcome of the unit.  When [open]
    fails or a line does not parse, the exception is raised and
    [collection.insert] is not called, whatever number of lines parsed
    before. *)
Theorem insert_json_file_all_or_nothing {Doc} (open_file : string → result (list string))
    (strip : string → string) (json_loads : string → result Doc)
    (collection_insert : list Doc → option exn)
    (filename : string) (inserts : list (list Doc)) :
  (∀ lines docs,
     open_file filename = Return lines →
     Forall2 (λ line doc, json_loads (strip line) = Return doc) lines docs →
     insert_json_file open_file strip json_loads collection_insert filename
       inserts
     = (match collection_insert docs with
        | None => Return ()
        | Some e => Raise e
        end, inserts ++ [docs])) ∧
  (∀ pre line post docs e,
     open_file filename = Return (pre ++ line :: post) →
     Forall2 (λ line doc, json_loads (strip line) = Return doc) pre docs →
     json_loads (strip line) = Raise e →
     insert_json_file open_file strip json_loads collection_insert filename
       inserts
     = (Raise e, inserts)) ∧
  (∀ e,
     open_file filename = Raise e →
     insert_json_file open_file strip json_loads collection_insert filename
       inserts
     = (Raise e, inserts)).
Proof.
  unfold insert_json_file. split_and!.
  - intros lines docs -> Hparse. by rewrite (load_lines_ok _ _ _ docs).
  - intros pre line post docs e -> Hparse Hline.
    by rewrite (load_lines_fails _ _ _ _ _ docs _ e).
  - by intros e ->.
Qed.

Lemma insert_json_file_all_or_nothing_witness :
  insert_json_file (λ _, Return ["a"; "b"; "c"]) id
    (λ line, if String.eqb line "b" then Raise ValueError else Return line)
    (λ _, None) "f" []
  = (Raise ValueError, []).
Proof.
  apply (insert_json_file_all_or_nothing (λ _, Return ["a"; "b"; "c"]) id
           (λ line, if String.eqb line "b" then Raise ValueError else Return line)
           (λ _, None) "f" [])
    with (pre := ["a"]) (line := "b") (post := ["c"]) (docs := ["a"]).
  - reflexivity.
  - by repeat constructor.
  - reflexivity.
Defined.

Lemma TestJsonMultiImport_fast_mode_witness :
  let files := TestJsonMultiImport_files true (seq 0 45) in
  files = take 10 (seq 0 45) ∧
  (length files ≤ 10)%nat ∧
  insert_json_files (λ k, if (k =? 5)%nat then Some (TaskError 1) else None)
    files []
  = (match head (omap (λ k, if (k =? 5)%nat then Some (TaskError 1) else None)
                   files) with
     | None => Return ()
     | Some e => Raise e
     end, [] ++ files).
Proof.
  apply (TestJsonMultiImport_fast_mode
           (λ k, if (k =? 5)%nat then Some (TaskError 1) else None)
           (seq 0 45) []).
Defined.
